(** * Task view derivation of the HomeScreen component

    A shallow embedding of the state logic of [src/app/screens/HomeScreen.tsx]:
    the [dateRange] memo, the filter/sort effect and the
    [handleToggleTaskCompletion] handler, together with the part of the
    ECMAScript [Date] object those three rely on.

    Conventions.
    - A valid [Date] is its time value: milliseconds since the epoch, an
      integer.  The timestamps of the tasks and the selected date are valid
      dates; where the screen makes dates itself, in the [dateRange] memo,
      a date can be invalid (beyond what [TimeClip] lets through), and a
      date is an [option Z] with [None] for the invalid date.
    - Local time is UTC shifted by a fixed offset [tza] (milliseconds); the
      offset does not change with the date (no daylight-saving transitions).
    - Arrays are lists.  [filter] and [map] build a new array, so the in-place
      [sort] of the effect works on a fresh array and never touches [tasks]. *)

From Stdlib Require Import ZArith Lia Bool List String Sorted Permutation.
Import ListNotations.
Open Scope Z_scope.

(** ** The ECMAScript date arithmetic *)

Module JSDate.

Definition msPerDay : Z := 86400000.

Definition Day (t : Z) : Z := t / msPerDay.

Definition DaysInYear (y : Z) : Z :=
  if negb (y mod 4 =? 0) then 365
  else if negb (y mod 100 =? 0) then 366
  else if negb (y mod 400 =? 0) then 365
  else 366.

Definition DayFromYear (y : Z) : Z :=
  365 * (y - 1970) + (y - 1969) / 4 - (y - 1901) / 100 + (y - 1601) / 400.

Definition InLeapYear (y : Z) : Z :=
  if DaysInYear y =? 366 then 1 else 0.

(** The standard has "the largest integer [y] such that [DayFromYear y]
    is at most the day"; here an estimate from the mean year length is moved by
    at most one year ([YearFromDay_spec] shows it is that largest integer). *)
Definition YearFromDay (d : Z) : Z :=
  let y0 := 1970 + (400 * d) / 146097 in
  if d <? DayFromYear y0 then y0 - 1
  else if DayFromYear (y0 + 1) <=? d then y0 + 1
  else y0.

Definition YearFromTime (t : Z) : Z := YearFromDay (Day t).

Definition DayWithinYear (t : Z) : Z := Day t - DayFromYear (YearFromTime t).

(** Day number within the year of the first day of month [m] (0 to 11);
    [m = 12] gives the length of the year. *)
Definition monthStart (leap m : Z) : Z :=
  match m with
  | 0 => 0
  | 1 => 31
  | 2 => 59 + leap
  | 3 => 90 + leap
  | 4 => 120 + leap
  | 5 => 151 + leap
  | 6 => 181 + leap
  | 7 => 212 + leap
  | 8 => 243 + leap
  | 9 => 273 + leap
  | 10 => 304 + leap
  | 11 => 334 + leap
  | _ => 365 + leap
  end.

Definition MonthFromTime (t : Z) : Z :=
  let leap := InLeapYear (YearFromTime t) in
  let d := DayWithinYear t in
  if d <? 31 then 0
  else if d <? 59 + leap then 1
  else if d <? 90 + leap then 2
  else if d <? 120 + leap then 3
  else if d <? 151 + leap then 4
  else if d <? 181 + leap then 5
  else if d <? 212 + leap then 6
  else if d <? 243 + leap then 7
  else if d <? 273 + leap then 8
  else if d <? 304 + leap then 9
  else if d <? 334 + leap then 10
  else 11.

Definition DateFromTime (t : Z) : Z :=
  DayWithinYear t + 1
  - monthStart (InLeapYear (YearFromTime t)) (MonthFromTime t).

(** [MakeDay]: months outside 0..11 carry into the year, and the date is
    added as a plain number of days, so date 0 is the last day of the month
    before. *)
Definition MakeDay (year month date : Z) : Z :=
  let ym := year + month / 12 in
  let mn := month mod 12 in
  DayFromYear ym + monthStart (InLeapYear ym) mn + date - 1.

Definition MakeTime (hour min sec ms : Z) : Z :=
  hour * 3600000 + min * 60000 + sec * 1000 + ms.

Definition MakeDate (day time : Z) : Z := day * msPerDay + time.

(** [TimeClip]: a time value further than 8.64e15 ms from the epoch is no
    time value; the date it was meant for is invalid. *)
Definition TimeClip (t : Z) : option Z :=
  if Z.abs t <=? 8640000000000000 then Some t else None.

Section LocalTime.

(** Offset of local time from UTC, in milliseconds. *)
Variable tza : Z.

Definition LocalTime (t : Z) : Z := t + tza.

Definition UTC (t : Z) : Z := t - tza.

(** [new Date(year, month, date)]: a year from 0 to 99 means 1900 + year. *)
Definition newDate (year month date : Z) : Z :=
  let yr := if (0 <=? year) && (year <=? 99) then 1900 + year else year in
  UTC (MakeDate (MakeDay yr month date) (MakeTime 0 0 0 0)).

(** The same with the final [TimeClip] of the constructor: the [Date] object
    made, [None] when it is an invalid date. *)
Definition newDateObject (year month date : Z) : option Z :=
  TimeClip (newDate year month date).


Definition getFullYear (t : Z) : Z := YearFromTime (LocalTime t).

Definition getMonth (t : Z) : Z := MonthFromTime (LocalTime t).

Definition getDate (t : Z) : Z := DateFromTime (LocalTime t).

(** [d.getDate()] of a [Date] object: [NaN], here [None], for an invalid
    date. *)
Definition getDateOf (d : option Z) : option Z := option_map getDate d.

(** [d.setHours(hour, min, sec, ms)], as the new time value of [d]. *)
Definition setHours (t hour min sec ms : Z) : Z :=
  UTC (MakeDate (Day (LocalTime t)) (MakeTime hour min sec ms)).

End LocalTime.

End JSDate.

(** ** The data of the screen *)

(** Modelled from the spec: the [TaskPriority] type of [../types], which is
    not part of the sources at hand.  Its values are the four keys of the
    [priorityOrder] table of the sort and the [low] that [PrioritySelector]
    offers besides [high] and [normal]. *)
Inductive TaskPriority : Type :=
  | crucial
  | high
  | normal
  | optional
  | low.

(** Modelled from the spec: the [Task] type of [../types] (section 3 of the
    specification).  A timestamp is a time value; an optional field that is
    absent is [None]. *)
Record Task : Type := mkTask {
  id : string;
  title : string;
  description : option string;
  createdAt : Z;
  dueDate : option Z;
  priority : TaskPriority;
  category : option string;
  completed : bool
}.

(** Modelled from the spec: the [Category] type of [CategorySelector]; the
    colour and icon are passed through untouched and left out. *)
Record Category : Type := mkCategory {
  cat_id : string;
  cat_name : string
}.

Inductive FilterType : Type :=
  | ByCreatedAt
  | ByDueDate.

(** The [useState] cells of [HomeScreen] that the derivation and the toggle
    handler read or write. *)
Record State : Type := mkState {
  tasks : list Task;
  filteredTasks : list Task;
  selectedFilterType : FilterType;
  activeCategory : option string;
  activeCategoryName : option string;
  categories : list Category;
  currentDate : Z
}.

Definition setTasks (v : list Task) (s : State) : State :=
  mkState v (filteredTasks s) (selectedFilterType s) (activeCategory s)
          (activeCategoryName s) (categories s) (currentDate s).

Definition setFilteredTasks (v : list Task) (s : State) : State :=
  mkState (tasks s) v (selectedFilterType s) (activeCategory s)
          (activeCategoryName s) (categories s) (currentDate s).

Definition setActiveCategoryName (v : option string) (s : State) : State :=
  mkState (tasks s) (filteredTasks s) (selectedFilterType s) (activeCategory s)
          v (categories s) (currentDate s).

(** ** JavaScript idioms used by the screen *)

(** Truthiness of a [string | null]: [null] and the empty string are falsy. *)
Definition truthy (v : option string) : option string :=
  match v with
  | Some EmptyString => None
  | Some c => Some c
  | None => None
  end.

(** [v || 2] for a table entry [v]: [undefined] and [0] are falsy. *)
Definition orTwo (v : option Z) : Z :=
  match v with
  | None => 2
  | Some n => if n =? 0 then 2 else n
  end.

(** [a === b] where [a] may be [undefined] and [b] is a string. *)
Definition strictEq (a : option string) (b : string) : bool :=
  match a with
  | Some x => String.eqb x b
  | None => false
  end.

(** [Array.prototype.sort] with a comparison function.  The standard asks
    for a stable sort; stable insertion from the right is one, and
    [SortFacts.stable_sort_unique] shows that a stable sort by a key has only one
    possible result. *)
Section Sort.

Context {A : Type}.
Variable comparefn : A -> A -> Z.

Fixpoint insert (x : A) (l : list A) : list A :=
  match l with
  | [] => [x]
  | y :: l' => if comparefn x y <=? 0 then x :: y :: l' else y :: insert x l'
  end.

Definition sort (l : list A) : list A := fold_right insert [] l.

End Sort.

(** What a handler does to the world outside the component state. *)
Inductive Effect : Type :=
  | SaveTasks (saved : list Task)
  | ConsoleError (message : string)
  | AlertAlert (heading message : string).

(** How the promise returned by an [async] handler settles. *)
Inductive Settled : Type :=
  | Fulfilled
  | Rejected.

(** ** The [dateRange] memo *)

Section Screen.

Variable tza : Z.

(** The loop [for (let i = 1; i <= n; i++)] pushing
    [new Date(year, month, i)].  The bound [n] is [None] when it is [NaN];
    [i <= NaN] is false, so the loop does not run then. *)
Definition pushDays (year month : Z) (n : option Z) : list (option Z) :=
  match n with
  | None => []
  | Some n =>
      map (fun i => JSDate.newDateObject tza year month (Z.of_nat i))
          (seq 1 (Z.to_nat n))
  end.

(** [now] is the [new Date()] of the memo, the current time, which is a
    valid date. *)
Definition dateRange (now : Z) : list (option Z) :=
  let currentMonth := JSDate.getMonth tza now in
  let currentYear := JSDate.getFullYear tza now in
  let lastDay := JSDate.newDateObject tza currentYear (currentMonth + 1) 0 in
  let dates :=
    pushDays currentYear currentMonth (JSDate.getDateOf tza lastDay) in
  let nextMonth := if currentMonth =? 11 then 0 else currentMonth + 1 in
  let nextMonthYear :=
    if currentMonth =? 11 then currentYear + 1 else currentYear in
  dates ++ pushDays nextMonthYear nextMonth (Some 15).

(** ** The filter effect *)

Definition priorityOrder (p : TaskPriority) : option Z :=
  match p with
  | crucial => Some 0
  | high => Some 1
  | normal => Some 2
  | optional => Some 3
  | low => None
  end.

(** The comparison function handed to [sort]. *)
Definition comparePriority (a b : Task) : Z :=
  orTwo (priorityOrder (priority a)) - orTwo (priorityOrder (priority b)).

Definition relevantDate (filterType : FilterType) (task : Task) : Z :=
  match filterType, dueDate task with
  | ByDueDate, Some d => d
  | _, _ => createdAt task
  end.

(** The callback of the first [tasks.filter]. *)
Definition onSelectedDay (startTimestamp endTimestamp : Z)
           (filterType : FilterType) (task : Task) : bool :=
  let taskDate := JSDate.setHours tza (relevantDate filterType task) 0 0 0 0 in
  let taskTimestamp := taskDate in
  (taskTimestamp >=? startTimestamp) && (taskTimestamp <=? endTimestamp).

Definition getCategoryDetails (s : State) (categoryId : option string)
  : option Category :=
  match truthy categoryId with
  | None => None
  | Some c => find (fun cat => String.eqb (cat_id cat) c) (categories s)
  end.

Definition filterEffect (s : State) : State :=
  if (List.length (tasks s) =? 0)%nat then setFilteredTasks [] s
  else
    let startOfDay := JSDate.setHours tza (currentDate s) 0 0 0 0 in
    let endOfDay := JSDate.setHours tza (currentDate s) 23 59 59 999 in
    let startTimestamp := startOfDay in
    let endTimestamp := endOfDay in
    let dateFiltered :=
      filter (onSelectedDay startTimestamp endTimestamp
                            (selectedFilterType s)) (tasks s) in
    let '(dateFiltered, s) :=
      match truthy (activeCategory s) with
      | Some c =>
          (filter (fun task => strictEq (category task) c) dateFiltered,
           match getCategoryDetails s (activeCategory s) with
           | Some categoryDetails =>
               setActiveCategoryName (Some (cat_name categoryDetails)) s
           | None => s
           end)
      | None => (dateFiltered, setActiveCategoryName None s)
      end in
    let dateFiltered := sort comparePriority dateFiltered in
    setFilteredTasks dateFiltered s.

(** The derived view for given inputs: what the effect stores in
    [filteredTasks] when it runs on a screen holding them. *)
Definition derive (T : list Task) (d : Z) (field : FilterType)
           (c : option string) : list Task :=
  filteredTasks (filterEffect (mkState T [] field c None [] d)).

(** ** The toggle handler *)

Definition toggleCompleted (task : Task) : Task :=
  mkTask (id task) (title task) (description task) (createdAt task)
         (dueDate task) (priority task) (category task)
         (negb (completed task)).

(** The array the handler builds with [tasks.map]. *)
Definition updatedTasks (taskId : string) (tasks : list Task) : list Task :=
  map (fun task =>
         if String.eqb (id task) taskId then toggleCompleted task else task)
      tasks.

(** [saveOk] tells whether [storageService.saveTasks], which lives outside
    the screen, resolves ([true]) or throws ([false]) for the collection
    it is given.  The result is the new state, the effects on the outside
    in order, and how the handler's promise settles.  The [else] branch is
    the [catch] block: it logs and alerts, and does not throw again. *)
Definition handleToggleTaskCompletion (saveOk : list Task -> bool)
           (taskId : string) (s : State) : State * list Effect * Settled :=
  let updatedTasks := updatedTasks taskId (tasks s) in
  let s := setTasks updatedTasks s in
  if saveOk updatedTasks then (s, [SaveTasks updatedTasks], Fulfilled)
  else (s, [SaveTasks updatedTasks;
            ConsoleError "Error updating task:";
            AlertAlert "Error" "Failed to update task status"], Fulfilled).

End Screen.

(** ** Reference notions used in the statements *)

(** Length of month [m] (0 to 11) of year [y] in the Gregorian calendar. *)
Definition daysInMonth (y m : Z) : Z :=
  match m with
  | 1 => 28 + JSDate.InLeapYear y
  | 3 | 5 | 8 | 10 => 30
  | _ => 31
  end.

(** The month after month [m] of year [y], as a (year, month) pair. *)
Definition monthAfter (y m : Z) : Z * Z :=
  if m =? 11 then (y + 1, 0) else (y, m + 1).

(** The time values of day 1 to day [n] of a month, each at local
    midnight. *)
Definition monthDates (tza year month n : Z) : list Z :=
  map (fun i => JSDate.newDate tza year month (Z.of_nat i))
      (seq 1 (Z.to_nat n)).

(** The calendar fields a [Date] shows in local time. *)
Definition civil (tza t : Z) : Z * Z * Z :=
  (JSDate.getFullYear tza t, JSDate.getMonth tza t, JSDate.getDate tza t).

(** The local calendar day a time value falls on, as a day number. *)
Definition localDay (tza t : Z) : Z := JSDate.Day (JSDate.LocalTime tza t).

(** The order of a list sorted by a numeric key. *)
Definition ascendingBy {A : Type} (key : A -> Z) (a b : A) : Prop :=
  key a <= key b.

(** The rank the specification gives a priority: crucial 0, high 1, normal
    2, optional 3, and 2 for anything else. *)
Definition claimedRank (p : TaskPriority) : Z :=
  match p with
  | crucial => 0
  | high => 1
  | normal => 2
  | optional => 3
  | low => 2
  end.

(** The rank the comparison function of the effect works with. *)
Definition effectiveRank (p : TaskPriority) : Z := orTwo (priorityOrder p).

(** The tasks the two filters of the effect keep, in the order of the
    collection, before they are sorted. *)
Definition retained (tza : Z) (T : list Task) (d : Z) (field : FilterType)
           (c : option string) : list Task :=
  let onDay :=
    filter (onSelectedDay tza (JSDate.setHours tza d 0 0 0 0)
                          (JSDate.setHours tza d 23 59 59 999) field) T in
  match truthy c with
  | Some c' => filter (fun task => strictEq (category task) c') onDay
  | None => onDay
  end.

(** ** Sample data *)

Definition sampleTask (i : string) (p : TaskPriority) (created : Z)
           (due : option Z) (cat : option string) : Task :=
  mkTask i "task" None created due p cat false.

(** Scenario A of the specification: three tasks created on 10, 10 and 11
    March 2024 (local midnight), with priorities high, crucial and normal. *)
Definition scenarioA (tza : Z) : list Task :=
  [ sampleTask "1" high (JSDate.newDate tza 2024 2 10) None None;
    sampleTask "2" crucial (JSDate.newDate tza 2024 2 10) None None;
    sampleTask "3" normal (JSDate.newDate tza 2024 2 11) None None ].

(** 10 March 2024, 12:00 UTC. *)
Definition noon10March : Z := 1710072000000.

(** Two tasks of that day, one filed under "work" and one without a
    category. *)
Definition categorised : list Task :=
  [ sampleTask "1" normal noon10March None (Some "work"%string);
    sampleTask "2" normal noon10March None None ].

Definition sampleState (T : list Task) : State :=
  mkState T [] ByDueDate None None [] noon10March.

(** One task of each priority, all of the same day. *)
Definition onePerPriority : list Task :=
  [ sampleTask "n" normal noon10March None None;
    sampleTask "o" optional noon10March None None;
    sampleTask "c" crucial noon10March None None;
    sampleTask "l" low noon10March None None;
    sampleTask "h" high noon10March None None ].

(** ** The other handlers of the screen *)

Definition setActiveCategory (v : option string) (s : State) : State :=
  mkState (tasks s) (filteredTasks s) (selectedFilterType s) v
          (activeCategoryName s) (categories s) (currentDate s).

Definition setCategories (v : list Category) (s : State) : State :=
  mkState (tasks s) (filteredTasks s) (selectedFilterType s) (activeCategory s)
          (activeCategoryName s) v (currentDate s).

Definition setSelectedFilterType (v : FilterType) (s : State) : State :=
  mkState (tasks s) (filteredTasks s) v (activeCategory s)
          (activeCategoryName s) (categories s) (currentDate s).

(** The button of the confirmation dialog the user presses; [None] when the
    dialog is dismissed without a button. *)
Inductive AlertButton : Type :=
  | CancelButton
  | DeleteButton.

(** What [handleDeleteTask] leaves behind: the state, the effects on the
    outside in order, how the handler's own promise settles, and how the
    promise of the [onPress] callback of the Delete button settles when that
    callback ran. *)
Record DeleteOutcome : Type := mkDeleteOutcome {
  del_state : State;
  del_effects : list Effect;
  del_handler : Settled;
  del_onPress : option Settled
}.

(** The array the Delete callback builds with [tasks.filter]. *)
Definition remainingTasks (taskId : string) (tasks : list Task) : list Task :=
  filter (fun task => negb (String.eqb (id task) taskId)) tasks.

(** The [try] block of the handler holds the call of [Alert.alert] only,
    which returns at once; the callback of the Delete button runs later,
    outside of it, so a save that throws there rejects the callback's promise
    and reaches neither [console.error] nor the error alert.  The callback
    works on the [tasks] the handler was created with, taken here to be
    those of the state. *)
Definition handleDeleteTask (pressed : option AlertButton)
           (saveOk : list Task -> bool) (taskId : string) (s : State)
  : DeleteOutcome :=
  let confirm :=
    AlertAlert "Delete Task" "Are you sure you want to delete this task?" in
  match pressed with
  | Some DeleteButton =>
      let updatedTasks := remainingTasks taskId (tasks s) in
      mkDeleteOutcome (setTasks updatedTasks s)
                      [confirm; SaveTasks updatedTasks]
                      Fulfilled
                      (Some (if saveOk updatedTasks then Fulfilled
                             else Rejected))
  | _ => mkDeleteOutcome s [confirm] Fulfilled None
  end.

(** The two spinners of the screen. *)
Record Indicators : Type := mkIndicators {
  loading : bool;
  refreshing : bool
}.

(** [loadTasks]: [loaded] is what [storageService.loadTasks] resolves to,
    [None] when it throws.  The first component is the indicators while the
    load is pending, the rest is the outcome once the [finally] block ran. *)
Definition loadTasks (loaded : option (list Task)) (s : State)
           (i : Indicators)
  : Indicators * (State * Indicators * list Effect * Settled) :=
  let pending := mkIndicators (loading i) true in
  let done := mkIndicators false false in
  (pending,
   match loaded with
   | Some loadedTasks => (setTasks loadedTasks s, done, [], Fulfilled)
   | None =>
       (s, done,
        [ConsoleError "Error loading tasks:";
         AlertAlert "Error" "Failed to load tasks. Please try again."],
        Fulfilled)
   end).

(** What reading the categories from [AsyncStorage] can come to: [getItem]
    throws; there is no item (or an empty one, which is falsy as well);
    [JSON.parse] throws; or a list of categories comes out. *)
Inductive StoredCategories : Type :=
  | GetItemThrows
  | NoItem
  | ParseThrows
  | Parsed (parsedCategories : list Category).

(** [loadCategories] is made anew for every value of [activeCategory]
    ([useCallback] with that dependency); a call reads the value it was made
    with, [capturedActiveCategory], also after the [await], when the state
    [s] it writes to may hold another one. *)
Definition loadCategories (capturedActiveCategory : option string)
           (stored : StoredCategories) (s : State)
  : State * list Effect :=
  match stored with
  | GetItemThrows | ParseThrows =>
      (s, [ConsoleError "Error loading categories:"])
  | NoItem => (s, [])
  | Parsed parsedCategories =>
      let s := setCategories parsedCategories s in
      match truthy capturedActiveCategory with
      | Some c =>
          match find (fun cat => String.eqb (cat_id cat) c) parsedCategories with
          | Some categoryDetails =>
              (setActiveCategoryName (Some (cat_name categoryDetails)) s, [])
          | None => (s, [])
          end
      | None => (s, [])
      end
  end.

(** [getCategoryDetails] is the one of the render in which the handler was
    made: it looks in the categories of the state before the call. *)
Definition handleCategoryFilter (category : option string) (s : State)
  : State :=
  let s' := setActiveCategory category s in
  match truthy category with
  | Some _ =>
      match getCategoryDetails s category with
      | Some categoryDetails =>
          setActiveCategoryName (Some (cat_name categoryDetails)) s'
      | None => s'
      end
  | None => setActiveCategoryName None s'
  end.

Definition toggleDateFilterType (s : State) : State :=
  setSelectedFilterType
    (match selectedFilterType s with
     | ByCreatedAt => ByDueDate
     | ByDueDate => ByCreatedAt
     end) s.

Definition setCurrentDate (v : Z) (s : State) : State :=
  mkState (tasks s) (filteredTasks s) (selectedFilterType s) (activeCategory s)
          (activeCategoryName s) (categories s) v.

(** [handleDateChange] also sets the month label of the slider, a string
    formatted for the locale, which is not among the cells of [State]. *)
Definition handleDateChange (date : Z) (s : State) : State :=
  setCurrentDate date s.

(** ** The priority selector *)

Record PriorityOption : Type := mkPriorityOption {
  value : TaskPriority;
  label : string;
  icon : string;
  optionDescription : string
}.

Definition priorityOptions : list PriorityOption :=
  [ mkPriorityOption high "high" "alert-circle" "Must be done ASAP";
    mkPriorityOption normal "normal" "bookmark" "Standard priority";
    mkPriorityOption low "low" "flag" "Can be done later" ].

Definition TaskPriority_eqb (a b : TaskPriority) : bool :=
  match a, b with
  | crucial, crucial | high, high | normal, normal
  | optional, optional | low, low => true
  | _, _ => false
  end.

(** [selectedPriority === option.value], which decides whether an option is
    drawn as the selected one. *)
Definition isSelected (selectedPriority : TaskPriority)
           (opt : PriorityOption) : bool :=
  TaskPriority_eqb selectedPriority (value opt).

(** ** Further reference notions *)

(** The displayed category name agrees with the categories: when the active
    category is found among them, its name is the one displayed. *)
Definition nameAgrees (s : State) : Prop :=
  forall categoryDetails,
    getCategoryDetails s (activeCategory s) = Some categoryDetails ->
    activeCategoryName s = Some (cat_name categoryDetails).

(** No two tasks of the collection have the same id. *)
Definition uniqueIds (T : list Task) : Prop := NoDup (map id T).

(** One thing happening on the screen: a handler runs, a load completes,
    or the filter effect runs. *)
Inductive ScreenEvent : Type :=
  | TaskToggled (saveOk : list Task -> bool) (taskId : string)
  | DeleteAsked (pressed : option AlertButton) (saveOk : list Task -> bool)
                (taskId : string)
  | TasksLoaded (loaded : option (list Task)) (i : Indicators)
  | CategoriesLoaded (capturedActiveCategory : option string)
                     (stored : StoredCategories)
  | CategoryChosen (chosen : option string)
  | FilterTypeToggled
  | DateChosen (date : Z)
  | FilterEffectRun.

Definition applyEvent (tza : Z) (e : ScreenEvent) (s : State) : State :=
  match e with
  | TaskToggled saveOk taskId =>
      fst (fst (handleToggleTaskCompletion saveOk taskId s))
  | DeleteAsked pressed saveOk taskId =>
      del_state (handleDeleteTask pressed saveOk taskId s)
  | TasksLoaded loaded i => fst (fst (fst (snd (loadTasks loaded s i))))
  | CategoriesLoaded captured stored =>
      fst (loadCategories captured stored s)
  | CategoryChosen chosen => handleCategoryFilter chosen s
  | FilterTypeToggled => toggleDateFilterType s
  | DateChosen date => handleDateChange date s
  | FilterEffectRun => filterEffect tza s
  end.

Definition applyEvents (tza : Z) (es : list ScreenEvent) (s : State) : State :=
  fold_left (fun s e => applyEvent tza e s) es s.

(** A category load is current when the active category it was started with
    is still the active category at the moment it completes. *)
Definition loadIsCurrent (e : ScreenEvent) (s : State) : Prop :=
  match e with
  | CategoriesLoaded captured _ => captured = activeCategory s
  | _ => True
  end.

(** Every category load of the sequence is current when it completes. *)
Fixpoint loadsAreCurrent (tza : Z) (es : list ScreenEvent) (s : State)
  : Prop :=
  match es with
  | [] => True
  | e :: es' =>
      loadIsCurrent e s /\ loadsAreCurrent tza es' (applyEvent tza e s)
  end.

(** The state the screen is mounted with, at the moment [today]. *)
Definition initialState (today : Z) : State :=
  mkState [] [] ByDueDate None None [] today.

(** Every priority of the collection is one the selector offers. *)
Definition fromSelector (T : list Task) : Prop :=
  forall task, In task T ->
    exists opt, In opt priorityOptions /\ value opt = priority task.

(** Three categories, two of them with the id "work". *)
Definition sampleCategories : list Category :=
  [ mkCategory "home" "Home"; mkCategory "work" "Work";
    mkCategory "work" "Office" ].

(** ** Proof automation *)

Ltac divmod := Z.div_mod_to_equations; lia.

(** Case analysis on a month number known to lie between 0 and 11. *)
Ltac by_month m :=
  let C := fresh "C" in
  assert (C : m = 0 \/ m = 1 \/ m = 2 \/ m = 3 \/ m = 4 \/ m = 5 \/ m = 6
              \/ m = 7 \/ m = 8 \/ m = 9 \/ m = 10 \/ m = 11) by lia;
  repeat (destruct C as [C | C]); subst m;
  repeat match goal with
    | |- context [0 + 1] => change (0 + 1) with 1
    | |- context [Z.pos ?p + 1] =>
        let v := eval vm_compute in (Z.pos p + 1) in
        change (Z.pos p + 1) with v
    end;
  cbv beta iota delta [JSDate.monthStart daysInMonth]; lia.

(** Bounds of a month whose number is a literal. *)
Ltac month_bounds :=
  repeat match goal with
    | |- context [0 + 1] => change (0 + 1) with 1
    | |- context [Z.pos ?p + 1] =>
        let v := eval vm_compute in (Z.pos p + 1) in
        change (Z.pos p + 1) with v
    end;
  cbv beta iota delta [JSDate.monthStart]; lia.

(** * Facts about the date arithmetic *)

Module DateFacts.
Import JSDate.

Lemma DaysInYear_cases y : DaysInYear y = 365 \/ DaysInYear y = 366.
Proof.
  unfold DaysInYear.
  destruct (y mod 4 =? 0), (y mod 100 =? 0), (y mod 400 =? 0); cbn [negb]; lia.
Qed.

Lemma InLeapYear_DaysInYear y : DaysInYear y = 365 + InLeapYear y.
Proof.
  unfold InLeapYear.
  destruct (DaysInYear_cases y) as [E | E]; rewrite E; reflexivity.
Qed.

Lemma InLeapYear_cases y : InLeapYear y = 0 \/ InLeapYear y = 1.
Proof. unfold InLeapYear. destruct (DaysInYear y =? 366); lia. Qed.

Lemma DayFromYear_succ y : DayFromYear (y + 1) = DayFromYear y + DaysInYear y.
Proof.
  unfold DayFromYear, DaysInYear.
  destruct (Z.eqb_spec (y mod 4) 0), (Z.eqb_spec (y mod 100) 0),
    (Z.eqb_spec (y mod 400) 0); cbn [negb]; divmod.
Qed.

Lemma DayFromYear_lt y y' : y < y' -> DayFromYear y < DayFromYear y'.
Proof. unfold DayFromYear. intros H. divmod. Qed.

Lemma DayFromYear_le y y' : y <= y' -> DayFromYear y <= DayFromYear y'.
Proof.
  intros H. destruct (Z.eq_dec y y') as [-> | N]; [lia |].
  apply Z.lt_le_incl, DayFromYear_lt. lia.
Qed.

(** [YearFromDay d] is a year whose days include [d] ... *)
Lemma YearFromDay_spec d :
  DayFromYear (YearFromDay d) <= d < DayFromYear (YearFromDay d + 1).
Proof.
  unfold YearFromDay.
  destruct (Z.ltb_spec d (DayFromYear (1970 + 400 * d / 146097))) as [L | L].
  - unfold DayFromYear in *. divmod.
  - destruct (Z.leb_spec (DayFromYear (1970 + 400 * d / 146097 + 1)) d)
      as [M | M]; [| lia].
    unfold DayFromYear in *. divmod.
Qed.

(** ... and there is only one such year. *)
Lemma YearFromDay_unique d y :
  DayFromYear y <= d < DayFromYear (y + 1) -> YearFromDay d = y.
Proof.
  intros H. pose proof (YearFromDay_spec d) as S.
  destruct (Z.lt_trichotomy (YearFromDay d) y) as [L | [E | G]]; [| exact E |].
  - assert (DayFromYear (YearFromDay d + 1) <= DayFromYear y)
      by (apply DayFromYear_le; lia). lia.
  - assert (DayFromYear (y + 1) <= DayFromYear (YearFromDay d))
      by (apply DayFromYear_le; lia). lia.
Qed.

(** The standard's wording: the largest year that starts on or before [d]. *)
Lemma YearFromDay_largest d y :
  DayFromYear y <= d <-> y <= YearFromDay d.
Proof.
  pose proof (YearFromDay_spec d) as S. split; intros H.
  - destruct (Z.le_gt_cases y (YearFromDay d)) as [L | G]; [exact L |].
    assert (DayFromYear (YearFromDay d + 1) <= DayFromYear y)
      by (apply DayFromYear_le; lia). lia.
  - apply DayFromYear_le in H. lia.
Qed.

Lemma Day_MakeDate day time :
  0 <= time < msPerDay -> Day (MakeDate day time) = day.
Proof. unfold Day, MakeDate, msPerDay. intros H. divmod. Qed.

Lemma LocalTime_UTC tza t : LocalTime tza (UTC tza t) = t.
Proof. unfold LocalTime, UTC. lia. Qed.

Lemma MonthFromTime_range t : 0 <= MonthFromTime t <= 11.
Proof.
  unfold MonthFromTime.
  repeat match goal with |- context [if ?b then _ else _] => destruct b end;
    lia.
Qed.

Lemma monthStart_step leap m :
  0 <= m <= 11 ->
  monthStart leap (m + 1) - monthStart leap m
  = match m with 1 => 28 + leap | 3 | 5 | 8 | 10 => 30 | _ => 31 end.
Proof.
  intros H.
  by_month m.
Qed.

Lemma monthStart_daysInMonth y m :
  0 <= m <= 11 ->
  monthStart (InLeapYear y) (m + 1)
  = monthStart (InLeapYear y) m + daysInMonth y m.
Proof.
  intros H. pose proof (monthStart_step (InLeapYear y) m H) as S.
  unfold daysInMonth. lia.
Qed.

Lemma daysInMonth_range y m : 28 <= daysInMonth y m <= 31.
Proof.
  unfold daysInMonth. pose proof (InLeapYear_cases y).
  destruct m as [| [p | p |] |]; try lia;
    repeat (destruct p as [p | p |]; try lia).
Qed.

Lemma monthStart_mono leap m :
  0 <= leap -> 0 <= m <= 11 -> 0 <= monthStart leap m.
Proof.
  intros L H.
  by_month m.
Qed.

Lemma monthStart_end y m :
  0 <= m <= 11 ->
  monthStart (InLeapYear y) m + daysInMonth y m <= DaysInYear y.
Proof.
  intros H. rewrite InLeapYear_DaysInYear. unfold daysInMonth.
  pose proof (InLeapYear_cases y).
  by_month m.
Qed.

Lemma MakeDay_in_year y m d :
  0 <= m <= 11 ->
  MakeDay y m d = DayFromYear y + monthStart (InLeapYear y) m + d - 1.
Proof.
  intros H. unfold MakeDay.
  replace (m / 12) with 0 by divmod. replace (m mod 12) with m by divmod.
  rewrite Z.add_0_r. reflexivity.
Qed.

(** Day 0 of the next month is the last day of this month. *)
Lemma MakeDay_month_end y m :
  0 <= m <= 11 -> MakeDay y (m + 1) 0 = MakeDay y m (daysInMonth y m).
Proof.
  intros H. rewrite (MakeDay_in_year y m) by exact H.
  destruct (Z.eq_dec m 11) as [-> | N].
  - unfold MakeDay. change ((11 + 1) / 12) with 1.
    change ((11 + 1) mod 12) with 0. rewrite DayFromYear_succ.
    rewrite InLeapYear_DaysInYear. unfold monthStart, daysInMonth. lia.
  - rewrite MakeDay_in_year by lia. rewrite monthStart_daysInMonth by lia. lia.
Qed.

(** The same date one month later is [daysInMonth] days later; after
    December comes January of the next year. *)
Lemma MakeDay_monthAfter y m d :
  0 <= m <= 11 ->
  MakeDay (fst (monthAfter y m)) (snd (monthAfter y m)) d
  = MakeDay y m d + daysInMonth y m.
Proof.
  intros H. unfold monthAfter. rewrite (MakeDay_in_year y m) by exact H.
  destruct (Z.eqb_spec m 11) as [-> | N]; cbn [fst snd].
  - rewrite MakeDay_in_year by lia. rewrite DayFromYear_succ.
    rewrite InLeapYear_DaysInYear. unfold monthStart, daysInMonth. lia.
  - rewrite MakeDay_in_year by lia. rewrite monthStart_daysInMonth by lia. lia.
Qed.

Lemma monthAfter_range y m :
  0 <= m <= 11 -> 0 <= snd (monthAfter y m) <= 11.
Proof.
  intros H. unfold monthAfter.
  destruct (Z.eqb_spec m 11); cbn [snd]; lia.
Qed.

Lemma YearFromTime_MakeDay y m d :
  0 <= m <= 11 -> 1 <= d <= daysInMonth y m ->
  YearFromTime (MakeDate (MakeDay y m d) 0) = y.
Proof.
  intros Hm Hd. unfold YearFromTime.
  rewrite Day_MakeDate by (unfold msPerDay; lia).
  apply YearFromDay_unique. rewrite MakeDay_in_year by exact Hm.
  rewrite DayFromYear_succ.
  pose proof (monthStart_end y m Hm).
  pose proof (InLeapYear_cases y) as L.
  assert (0 <= monthStart (InLeapYear y) m)
    by (apply monthStart_mono; [destruct L; lia | exact Hm]).
  lia.
Qed.

Lemma DayWithinYear_MakeDay y m d :
  0 <= m <= 11 -> 1 <= d <= daysInMonth y m ->
  DayWithinYear (MakeDate (MakeDay y m d) 0)
  = monthStart (InLeapYear y) m + d - 1.
Proof.
  intros Hm Hd. unfold DayWithinYear.
  rewrite YearFromTime_MakeDay by assumption.
  rewrite Day_MakeDate by (unfold msPerDay; lia).
  rewrite MakeDay_in_year by exact Hm. lia.
Qed.

Lemma MonthFromTime_MakeDay y m d :
  0 <= m <= 11 -> 1 <= d <= daysInMonth y m ->
  MonthFromTime (MakeDate (MakeDay y m d) 0) = m.
Proof.
  intros Hm Hd. unfold MonthFromTime.
  rewrite YearFromTime_MakeDay, DayWithinYear_MakeDay by assumption.
  unfold daysInMonth in Hd.
  pose proof (InLeapYear_cases y) as L.
  remember (InLeapYear y) as leap eqn:E. clear E.
  assert (C : m = 0 \/ m = 1 \/ m = 2 \/ m = 3 \/ m = 4 \/ m = 5 \/ m = 6
              \/ m = 7 \/ m = 8 \/ m = 9 \/ m = 10 \/ m = 11) by lia.
  repeat (destruct C as [C | C]); subst m;
    cbv beta iota delta [monthStart] in *;
    repeat match goal with
      | |- context [if ?a <? ?b then _ else _] =>
          destruct (Z.ltb_spec a b); try lia
      end.
Qed.

Lemma DateFromTime_MakeDay y m d :
  0 <= m <= 11 -> 1 <= d <= daysInMonth y m ->
  DateFromTime (MakeDate (MakeDay y m d) 0) = d.
Proof.
  intros Hm Hd. unfold DateFromTime.
  rewrite MonthFromTime_MakeDay, YearFromTime_MakeDay, DayWithinYear_MakeDay
    by assumption.
  lia.
Qed.

(** Reading back the fields of a date built from a year outside the
    two-digit window, a month and a day of that month. *)
Lemma civil_newDate tza y m d :
  y < 0 \/ 99 < y -> 0 <= m <= 11 -> 1 <= d <= daysInMonth y m ->
  civil tza (newDate tza y m d) = (y, m, d).
Proof.
  intros Hy Hm Hd. unfold civil, getFullYear, getMonth, getDate, newDate.
  replace ((0 <=? y) && (y <=? 99)) with false
    by (symmetry; apply andb_false_iff;
        rewrite Z.leb_gt, Z.leb_gt; lia).
  rewrite LocalTime_UTC. change (MakeTime 0 0 0 0) with 0.
  rewrite YearFromTime_MakeDay, MonthFromTime_MakeDay, DateFromTime_MakeDay
    by assumption.
  reflexivity.
Qed.

End DateFacts.

(** * The date range *)

Module DateRangeFacts.
Import JSDate DateFacts.

Lemma StronglySorted_map_seq (f : nat -> Z) a n :
  (forall i j, (i < j)%nat -> f i < f j) ->
  StronglySorted Z.lt (map f (seq a n)).
Proof.
  intros Hf. revert a. induction n as [| n IH]; intros a; cbn [seq map].
  - constructor.
  - constructor; [apply IH |].
    apply Forall_forall. intros x Hx.
    apply in_map_iff in Hx. destruct Hx as [j [<- Hj]].
    apply in_seq in Hj. apply Hf. lia.
Qed.

Lemma newDate_day tza y m d :
  y < 0 \/ 99 < y ->
  newDate tza y m d = (MakeDay y m 1 + (d - 1)) * msPerDay - tza.
Proof.
  intros Hy. unfold newDate.
  replace ((0 <=? y) && (y <=? 99)) with false
    by (symmetry; apply andb_false_iff; rewrite Z.leb_gt, Z.leb_gt; lia).
  unfold UTC, MakeDate, MakeTime, MakeDay. lia.
Qed.

Lemma monthDates_length tza y m n :
  0 <= n -> Z.of_nat (List.length (monthDates tza y m n)) = n.
Proof. intros H. unfold monthDates. rewrite length_map, length_seq. lia. Qed.

Lemma monthDates_civil tza y m n :
  y < 0 \/ 99 < y -> 0 <= m <= 11 -> n <= daysInMonth y m ->
  map (civil tza) (monthDates tza y m n)
  = map (fun i => (y, m, Z.of_nat i)) (seq 1 (Z.to_nat n)).
Proof.
  intros Hy Hm Hn. unfold monthDates. rewrite map_map.
  apply map_ext_in. intros i Hi. apply in_seq in Hi.
  apply civil_newDate; [assumption | assumption | lia].
Qed.

(** The days of one month are consecutive local midnights. *)
Lemma monthDates_consecutive tza y m n :
  y < 0 \/ 99 < y ->
  monthDates tza y m n
  = map (fun k => (MakeDay y m 1 + Z.of_nat k) * msPerDay - tza)
        (seq 0 (Z.to_nat n)).
Proof.
  intros Hy. unfold monthDates. rewrite <- seq_shift, map_map.
  apply map_ext. intros k. rewrite newDate_day by exact Hy.
  f_equal. f_equal. lia.
Qed.

(** Day 0 of the month after is the last day of the month. *)
Lemma newDate_lastDay tza y m :
  y < 0 \/ 99 < y -> 0 <= m <= 11 ->
  newDate tza y (m + 1) 0 = newDate tza y m (daysInMonth y m).
Proof.
  intros Hy Hm. unfold newDate.
  replace ((0 <=? y) && (y <=? 99)) with false
    by (symmetry; apply andb_false_iff; rewrite Z.leb_gt, Z.leb_gt; lia).
  rewrite MakeDay_month_end by exact Hm. reflexivity.
Qed.

Lemma getDate_newDate tza y m d :
  y < 0 \/ 99 < y -> 0 <= m <= 11 -> 1 <= d <= daysInMonth y m ->
  getDate tza (newDate tza y m d) = d.
Proof.
  intros Hy Hm Hd.
  pose proof (civil_newDate tza y m d Hy Hm Hd) as E.
  unfold civil in E. injection E as _ _ E. exact E.
Qed.

Lemma nextMonth_monthAfter y m :
  ((if m =? 11 then y + 1 else y), (if m =? 11 then 0 else m + 1))
  = monthAfter y m.
Proof. unfold monthAfter. destruct (m =? 11); reflexivity. Qed.

(** ** Dates inside the range of time values *)

Lemma TimeClip_inside t :
  - 8640000000000000 <= t <= 8640000000000000 -> TimeClip t = Some t.
Proof.
  intros H. unfold TimeClip.
  replace (Z.abs t <=? 8640000000000000) with true; [reflexivity |].
  symmetry. apply Z.leb_le. lia.
Qed.

Lemma DayFromYear_years y :
  99 < y <= 275760 -> - 683003 <= DayFromYear y <= 99999744.
Proof. intros H. unfold DayFromYear. divmod. Qed.

Lemma monthStart_le leap m :
  0 <= leap <= 1 -> 0 <= m <= 11 -> 0 <= monthStart leap m <= 335.
Proof. intros L H. by_month m. Qed.

(** A day of a year from 100 to 275759, or of the first half of January
    275760, is a valid date in every time zone. *)
Lemma newDate_inside tza y m d :
  - msPerDay <= tza <= msPerDay ->
  99 < y <= 275760 -> 0 <= m <= 11 -> 1 <= d <= 31 ->
  (y = 275760 -> m = 0 /\ d <= 15) ->
  newDateObject tza y m d = Some (newDate tza y m d).
Proof.
  intros Ht Hy Hm Hd Hlast. unfold newDateObject. apply TimeClip_inside.
  rewrite newDate_day by lia. rewrite MakeDay_in_year by exact Hm.
  pose proof (InLeapYear_cases y) as L.
  assert (S : 0 <= monthStart (InLeapYear y) m <= 335)
    by (apply monthStart_le; [lia | exact Hm]).
  unfold msPerDay in *.
  destruct (Z.eq_dec y 275760) as [E | N].
  - destruct (Hlast E) as [-> Hd']. subst y.
    pose proof (DayFromYear_years 275760 ltac:(lia)).
    cbv beta iota delta [monthStart] in *. lia.
  - pose proof (DayFromYear_years y Hy).
    pose proof (DayFromYear_years (y + 1) ltac:(lia)) as Hn.
    rewrite DayFromYear_succ in Hn.
    pose proof (DaysInYear_cases y). lia.
Qed.

Lemma pushDays_valid tza y m n :
  - msPerDay <= tza <= msPerDay ->
  99 < y <= 275760 -> 0 <= m <= 11 -> n <= 31 ->
  (y = 275760 -> m = 0 /\ n <= 15) ->
  pushDays tza y m (Some n) = map Some (monthDates tza y m n).
Proof.
  intros Ht Hy Hm Hn Hlast. unfold pushDays, monthDates. rewrite map_map.
  apply map_ext_in. intros i Hi. apply in_seq in Hi.
  apply newDate_inside; try assumption; [lia |].
  intros E. destruct (Hlast E). split; [assumption | lia].
Qed.

Lemma monthAfter_years y m :
  99 < y <= 275759 -> 0 <= m <= 11 ->
  99 < fst (monthAfter y m) <= 275760
  /\ (fst (monthAfter y m) = 275760 -> snd (monthAfter y m) = 0).
Proof.
  intros Hy Hm. unfold monthAfter.
  destruct (Z.eqb_spec m 11); cbn [fst snd]; lia.
Qed.

(** For a reference date in the years 100 to 275759 every date of the memo
    is valid: the days of the month of [now], then fifteen days of the month
    after. *)
Lemma dateRange_valid tza now :
  - msPerDay <= tza <= msPerDay ->
  99 < getFullYear tza now <= 275759 ->
  dateRange tza now
  = map Some
        (monthDates tza (getFullYear tza now) (getMonth tza now)
                    (daysInMonth (getFullYear tza now) (getMonth tza now))
         ++ monthDates tza
              (fst (monthAfter (getFullYear tza now) (getMonth tza now)))
              (snd (monthAfter (getFullYear tza now) (getMonth tza now)))
              15).
Proof.
  intros Ht Hy. unfold dateRange.
  set (y := getFullYear tza now) in *. set (m := getMonth tza now) in *.
  assert (Hm : 0 <= m <= 11) by apply MonthFromTime_range.
  pose proof (daysInMonth_range y m) as Hd.
  destruct (monthAfter_years y m Hy Hm) as [Hy' Hlast].
  assert (E : newDateObject tza y (m + 1) 0
              = Some (newDate tza y m (daysInMonth y m))).
  { unfold newDateObject. rewrite newDate_lastDay by (lia || exact Hm).
    apply newDate_inside; try assumption; lia. }
  rewrite E. unfold getDateOf. cbn [option_map].
  rewrite getDate_newDate by (lia || exact Hm).
  rewrite map_app. f_equal.
  - apply pushDays_valid; try assumption; lia.
  - replace (if m =? 11 then y + 1 else y) with (fst (monthAfter y m))
      by (rewrite <- nextMonth_monthAfter; reflexivity).
    replace (if m =? 11 then 0 else m + 1) with (snd (monthAfter y m))
      by (rewrite <- nextMonth_monthAfter; reflexivity).
    apply pushDays_valid; try assumption.
    + apply monthAfter_range. exact Hm.
    + lia.
    + intros E'. split; [apply Hlast; exact E' | lia].
Qed.

(** The valid dates of the memo are consecutive local midnights, also from
    the last day of the month to the first of the month after. *)
Lemma monthDates_then_fifteen tza y m :
  99 < y -> 0 <= m <= 11 ->
  monthDates tza y m (daysInMonth y m)
  ++ monthDates tza (fst (monthAfter y m)) (snd (monthAfter y m)) 15
  = map (fun k => (MakeDay y m 1 + Z.of_nat k) * msPerDay - tza)
        (seq 0 (Z.to_nat (daysInMonth y m + 15))).
Proof.
  intros Hy Hm.
  pose proof (daysInMonth_range y m) as Hd.
  rewrite !monthDates_consecutive;
    [| unfold monthAfter; destruct (m =? 11); cbn [fst]; lia | lia].
  rewrite MakeDay_monthAfter by exact Hm.
  rewrite Z2Nat.inj_add by lia. rewrite seq_app, map_app. f_equal.
  rewrite Nat.add_0_l.
  replace (seq (Z.to_nat (daysInMonth y m)) (Z.to_nat 15))
    with (map (fun k => (Z.to_nat (daysInMonth y m) + k)%nat)
              (seq 0 (Z.to_nat 15))).
  - rewrite map_map. apply map_ext. intros k. f_equal. f_equal. lia.
  - generalize (Z.to_nat 15) as n. generalize (Z.to_nat (daysInMonth y m)) as a.
    intros a n. revert a. induction n as [| n IH]; intros a; [reflexivity |].
    cbn [seq map]. rewrite Nat.add_0_r. f_equal.
    rewrite <- seq_shift, map_map. rewrite <- (IH (S a)).
    apply map_ext. intros k. lia.
Qed.

(** The memo on 20 December 2024, 12:00 UTC, in a zone three hours ahead:
    31 days of December, then 1 to 15 January 2025. *)
Example dateRange_december_2024 :
  map (option_map (civil 10800000)) (dateRange 10800000 1734696000000)
  = map (fun i => Some (2024, 11, Z.of_nat i)) (seq 1 31)
    ++ map (fun i => Some (2025, 0, Z.of_nat i)) (seq 1 15).
Proof. vm_compute. reflexivity. Qed.

(** In a leap-year February the memo has 29 + 15 entries. *)
Example dateRange_february_2024 :
  List.length (dateRange 0 1707998400000) = 44%nat.
Proof. vm_compute. reflexivity. Qed.

(** At the last moment a [Date] can hold, in September 275760, the last day
    of the month is no valid date any more: the first loop does not run, and
    the fifteen days of October are invalid dates. *)
Example dateRange_last_moment :
  civil 0 8640000000000000 = (275760, 8, 13)
  /\ dateRange 0 8640000000000000 = repeat None 15.
Proof. split; vm_compute; reflexivity. Qed.

(** Before the year 100 the constructor reads the year of the reference date
    as a year of the twentieth century: for 15 June of the year 50 the memo
    holds the days of June 1950. *)
Example dateRange_year_50 :
  civil 0 (-60574996800000) = (50, 5, 15)
  /\ hd_error (map (option_map (civil 0)) (dateRange 0 (-60574996800000)))
     = Some (Some (1950, 5, 1)).
Proof. split; vm_compute; reflexivity. Qed.

(** C3.  For a reference date [now] in the years 100 to 275759, which every
    reading of a clock is, in a time zone at most a day from UTC: every date
    of [dateRange] is a valid date, there are exactly [daysInMonth + 15] of
    them, they are strictly ascending, and read as calendar dates they are
    day 1 to the last day of the month of [now] followed by day 1 to 15 of
    the month after, which for December is January of the next year. *)
Theorem dateRange_month_then_fifteen tza now :
  - msPerDay <= tza <= msPerDay ->
  99 < getFullYear tza now <= 275759 ->
  exists dates,
    dateRange tza now = map Some dates
    /\ Z.of_nat (List.length (dateRange tza now))
       = daysInMonth (getFullYear tza now) (getMonth tza now) + 15
    /\ StronglySorted Z.lt dates
    /\ map (civil tza) dates
       = map (fun i => (getFullYear tza now, getMonth tza now, Z.of_nat i))
             (seq 1 (Z.to_nat (daysInMonth (getFullYear tza now)
                                           (getMonth tza now))))
         ++ map (fun i =>
                   (if getMonth tza now =? 11
                    then (getFullYear tza now + 1, 0, Z.of_nat i)
                    else (getFullYear tza now, getMonth tza now + 1,
                          Z.of_nat i)))
                (seq 1 15).
Proof.
  intros Ht Hy. rewrite (dateRange_valid tza now Ht Hy).
  set (y := getFullYear tza now) in *. set (m := getMonth tza now) in *.
  assert (Hm : 0 <= m <= 11) by apply MonthFromTime_range.
  pose proof (daysInMonth_range y m) as Hd.
  destruct (monthAfter_years y m Hy Hm) as [Hy' _].
  eexists. split; [reflexivity |]. split; [| split].
  - rewrite length_map, monthDates_then_fifteen by (lia || exact Hm).
    rewrite length_map, length_seq. lia.
  - rewrite monthDates_then_fifteen by (lia || exact Hm).
    apply StronglySorted_map_seq. intros i j Hij. unfold msPerDay. lia.
  - rewrite map_app. f_equal.
    + apply monthDates_civil; [lia | exact Hm | lia].
    + rewrite monthDates_civil;
        [| lia | apply monthAfter_range; exact Hm
         | pose proof (daysInMonth_range (fst (monthAfter y m))
                                         (snd (monthAfter y m))); lia].
      apply map_ext. intros i. unfold monthAfter.
      destruct (m =? 11); reflexivity.
Qed.

Lemma dateRange_month_then_fifteen_witness :
  - msPerDay <= 10800000 <= msPerDay
  /\ 99 < getFullYear 10800000 1734696000000 <= 275759
  /\ Z.of_nat (List.length (dateRange 10800000 1734696000000)) = 31 + 15.
Proof.
  assert (H1 : - msPerDay <= 10800000 <= msPerDay)
    by (unfold msPerDay; lia).
  assert (H2 : 99 < getFullYear 10800000 1734696000000 <= 275759)
    by (vm_compute; split; [reflexivity | discriminate]).
  split; [exact H1 |]. split; [exact H2 |].
  destruct (dateRange_month_then_fifteen 10800000 1734696000000 H1 H2)
    as [dates [_ [L _]]].
  exact L.
Defined.

End DateRangeFacts.

(** * Facts about the sort *)

Module SortFacts.

Section Insertion.

Context {A : Type}.
Variable comparefn : A -> A -> Z.

Lemma insert_perm x l : Permutation (insert comparefn x l) (x :: l).
Proof.
  induction l as [| y l IH]; cbn [insert]; [reflexivity |].
  destruct (comparefn x y <=? 0); [reflexivity |].
  rewrite IH. apply perm_swap.
Qed.

Lemma sort_perm l : Permutation (sort comparefn l) l.
Proof.
  induction l as [| x l IH]; cbn; [reflexivity |].
  fold (sort comparefn l). rewrite insert_perm, IH. reflexivity.
Qed.

Lemma sort_In x l : In x (sort comparefn l) <-> In x l.
Proof.
  split; apply Permutation_in;
    [apply sort_perm | apply Permutation_sym, sort_perm].
Qed.

Lemma sort_length l : List.length (sort comparefn l) = List.length l.
Proof. apply Permutation_length, sort_perm. Qed.

(** Inserting [x] does not carry it past an element it does not come
    strictly after: a class [P] of elements that all compare [<= 0] among
    themselves keeps its order. *)
Lemma insert_filter (P : A -> bool) x l :
  (forall a b, P a = true -> P b = true -> comparefn a b <= 0) ->
  filter P (insert comparefn x l) = filter P (x :: l).
Proof.
  intros HP. induction l as [| y l IH]; cbn [insert]; [reflexivity |].
  destruct (Z.leb_spec (comparefn x y) 0) as [L | G]; [reflexivity |].
  cbn [filter] in *. rewrite IH.
  destruct (P x) eqn:Px; [| reflexivity].
  destruct (P y) eqn:Py; [| reflexivity].
  specialize (HP x y Px Py). lia.
Qed.

Lemma sort_filter (P : A -> bool) l :
  (forall a b, P a = true -> P b = true -> comparefn a b <= 0) ->
  filter P (sort comparefn l) = filter P l.
Proof.
  intros HP. induction l as [| x l IH]; [reflexivity |].
  cbn [sort fold_right]. fold (sort comparefn l).
  rewrite insert_filter by exact HP. cbn [filter]. rewrite IH. reflexivity.
Qed.

(** When the comparison is a difference of keys, the result is ascending. *)
Variable key : A -> Z.
Hypothesis comparefn_key : forall a b, comparefn a b = key a - key b.

Lemma insert_sorted x l :
  StronglySorted (ascendingBy key) l -> StronglySorted (ascendingBy key) (insert comparefn x l).
Proof.
  induction 1 as [| y l S IH F]; cbn [insert].
  - repeat constructor.
  - destruct (Z.leb_spec (comparefn x y) 0) as [L | G].
    + rewrite comparefn_key in L.
      constructor; [constructor; assumption |].
      constructor; [unfold ascendingBy; lia |].
      eapply Forall_impl; [| exact F]. unfold ascendingBy. intros z Hz. lia.
    + rewrite comparefn_key in G. constructor; [exact IH |].
      eapply Permutation_Forall; [apply Permutation_sym, insert_perm |].
      constructor; [unfold ascendingBy; lia | exact F].
Qed.

Lemma sort_sorted l : StronglySorted (ascendingBy key) (sort comparefn l).
Proof.
  induction l as [| x l IH]; cbn; [constructor |].
  apply insert_sorted. exact IH.
Qed.

Lemma sort_stable r l :
  filter (fun a => key a =? r) (sort comparefn l)
  = filter (fun a => key a =? r) l.
Proof.
  apply sort_filter. intros a b Ha Hb.
  apply Z.eqb_eq in Ha, Hb. rewrite comparefn_key. lia.
Qed.

(** Two ascending lists with the same elements of each key, in the same
    order, are the same list. *)
Lemma sorted_stable_eq l1 l2 :
  StronglySorted (ascendingBy key) l1 -> StronglySorted (ascendingBy key) l2 ->
  (forall r, filter (fun a => key a =? r) l1
             = filter (fun a => key a =? r) l2) ->
  l1 = l2.
Proof.
  intros S1. revert l2. induction S1 as [| a l1 S1 IH F1]; intros l2 S2 E.
  - destruct l2 as [| b l2]; [reflexivity |].
    specialize (E (key b)). cbn in E. rewrite Z.eqb_refl in E. discriminate.
  - destruct S2 as [| b l2 S2 F2].
    + specialize (E (key a)). cbn in E. rewrite Z.eqb_refl in E. discriminate.
    + assert (Hab : key a = key b).
      { assert (Ia : In a (b :: l2)).
        { pose proof (E (key a)) as Ea. cbn [filter] in Ea.
          rewrite Z.eqb_refl in Ea.
          assert (I : In a (filter (fun x => key x =? key a) (b :: l2)))
            by (cbn [filter]; rewrite <- Ea; left; reflexivity).
          apply filter_In in I. tauto. }
        assert (Ib : In b (a :: l1)).
        { pose proof (E (key b)) as Eb. cbn [filter] in Eb.
          rewrite (Z.eqb_refl (key b)) in Eb.
          assert (I : In b (filter (fun x => key x =? key b) (a :: l1)))
            by (cbn [filter]; rewrite Eb; left; reflexivity).
          apply filter_In in I. tauto. }
        rewrite Forall_forall in F1, F2. unfold ascendingBy in *.
        destruct Ia as [-> | Ia]; [reflexivity |].
        destruct Ib as [-> | Ib]; [reflexivity |].
        specialize (F1 b Ib). specialize (F2 a Ia). lia. }
      pose proof (E (key a)) as Ea. cbn [filter] in Ea.
      rewrite Z.eqb_refl, Hab, Z.eqb_refl in Ea. injection Ea as -> Ea.
      f_equal. apply IH; [exact S2 |]. intros r.
      destruct (Z.eq_dec r (key b)) as [-> | N]; [exact Ea |].
      specialize (E r). cbn [filter] in E.
      replace (key b =? r) with false in E
        by (symmetry; apply Z.eqb_neq; lia).
      exact E.
Qed.

(** So the result of [sort] is the only one a stable sort by [key] can
    give. *)
Lemma stable_sort_unique l l' :
  StronglySorted (ascendingBy key) l' ->
  (forall r, filter (fun a => key a =? r) l'
             = filter (fun a => key a =? r) l) ->
  l' = sort comparefn l.
Proof.
  intros S E. apply sorted_stable_eq; [exact S | apply sort_sorted |].
  intros r. rewrite sort_stable. apply E.
Qed.

End Insertion.

End SortFacts.

(** * The derived view *)

Module DeriveFacts.
Import JSDate DateFacts SortFacts.

Lemma MakeTime_midnight : MakeTime 0 0 0 0 = 0.
Proof. reflexivity. Qed.

Lemma MakeTime_last : MakeTime 23 59 59 999 = msPerDay - 1.
Proof. reflexivity. Qed.

(** The callback of the date filter compares local calendar days. *)
Lemma onSelectedDay_eqb tza d field task :
  onSelectedDay tza (setHours tza d 0 0 0 0) (setHours tza d 23 59 59 999)
                field task
  = (localDay tza (relevantDate field task) =? localDay tza d).
Proof.
  apply Bool.eq_iff_eq_true.
  unfold onSelectedDay, setHours, localDay.
  rewrite MakeTime_midnight, MakeTime_last.
  rewrite andb_true_iff, Z.geb_le, Z.leb_le, Z.eqb_eq.
  unfold UTC, MakeDate, msPerDay.
  generalize (Day (LocalTime tza (relevantDate field task))) as a.
  generalize (Day (LocalTime tza d)) as b. intros b a. lia.
Qed.

Lemma localDay_newDate tza y m d :
  y < 0 \/ 99 < y -> localDay tza (newDate tza y m d) = MakeDay y m d.
Proof.
  intros Hy. unfold localDay, newDate.
  replace ((0 <=? y) && (y <=? 99)) with false
    by (symmetry; apply andb_false_iff; rewrite Z.leb_gt, Z.leb_gt; lia).
  rewrite LocalTime_UTC. apply Day_MakeDate. unfold msPerDay.
  rewrite MakeTime_midnight. lia.
Qed.

(** What the effect leaves in [filteredTasks]. *)
Lemma filterEffect_filteredTasks tza s :
  filteredTasks (filterEffect tza s)
  = sort comparePriority
         (retained tza (tasks s) (currentDate s) (selectedFilterType s)
                   (activeCategory s)).
Proof.
  unfold filterEffect, retained.
  destruct (tasks s) as [| t T] eqn:ET.
  - cbn. destruct (truthy (activeCategory s)); reflexivity.
  - cbn [List.length Nat.eqb]. rewrite <- ET.
    destruct (truthy (activeCategory s)) as [c |]; [| reflexivity].
    destruct (getCategoryDetails s (activeCategory s)); reflexivity.
Qed.

(** The effect writes [filteredTasks] and [activeCategoryName] only. *)
Lemma filterEffect_inputs tza s :
  tasks (filterEffect tza s) = tasks s
  /\ currentDate (filterEffect tza s) = currentDate s
  /\ selectedFilterType (filterEffect tza s) = selectedFilterType s
  /\ activeCategory (filterEffect tza s) = activeCategory s
  /\ categories (filterEffect tza s) = categories s.
Proof.
  unfold filterEffect.
  destruct (List.length (tasks s) =? 0)%nat; [cbn; tauto |].
  destruct (truthy (activeCategory s)) as [c |]; [| cbn; tauto].
  destruct (getCategoryDetails s (activeCategory s)); cbn; tauto.
Qed.

Lemma derive_eq tza T d field c :
  derive tza T d field c = sort comparePriority (retained tza T d field c).
Proof. unfold derive. rewrite filterEffect_filteredTasks. reflexivity. Qed.

Lemma comparePriority_rank a b :
  comparePriority a b
  = effectiveRank (priority a) - effectiveRank (priority b).
Proof. reflexivity. Qed.

Lemma retained_In tza T d field c task :
  In task (retained tza T d field c)
  <-> In task T
      /\ localDay tza (relevantDate field task) = localDay tza d
      /\ match truthy c with
         | Some c' => category task = Some c'
         | None => True
         end.
Proof.
  unfold retained. destruct (truthy c) as [c' |].
  - rewrite !filter_In, onSelectedDay_eqb, Z.eqb_eq.
    unfold strictEq. destruct (category task) as [x |].
    + rewrite String.eqb_eq. split.
      * intros [[H1 H2] H3]. subst. tauto.
      * intros [H1 [H2 H3]]. injection H3 as ->. tauto.
    + split; [intros [_ H]; discriminate | intros [_ [_ H]]; discriminate].
  - rewrite filter_In, onSelectedDay_eqb, Z.eqb_eq. tauto.
Qed.

(** ** Order of the view *)

Lemma effectiveRank_values :
  effectiveRank crucial = 2 /\ effectiveRank high = 1
  /\ effectiveRank normal = 2 /\ effectiveRank optional = 3
  /\ effectiveRank low = 2.
Proof. repeat split. Qed.

(** The view is ascending in the rank the comparison function computes, in
    which [crucial] stands with [normal]: its table entry [0] is falsy, so
    [|| 2] replaces it. *)
Lemma derive_ascending tza T d field c :
  StronglySorted (ascendingBy (fun task => effectiveRank (priority task)))
                 (derive tza T d field c).
Proof.
  rewrite derive_eq. apply sort_sorted. intros a b. apply comparePriority_rank.
Qed.

(** High first, then normal, crucial and low in their order in the
    collection, then optional. *)
Example derive_onePerPriority :
  map id (derive 0 onePerPriority noon10March ByCreatedAt None)
  = ["h"; "n"; "c"; "l"; "o"]%string.
Proof. vm_compute. reflexivity. Qed.

(** C1.  On Scenario A (filter field [createdAt], 10 March 2024 selected, no
    category filter) the effect yields the tasks in the order 1, 2: the high
    task before the crucial one, not the sequence 2, 1 of the claim. *)
Theorem scenarioA_high_before_crucial tza :
  map id (derive tza (scenarioA tza) (newDate tza 2024 2 10) ByCreatedAt None)
  = ["1"; "2"]%string
  /\ ~ StronglySorted
        (ascendingBy (fun task => claimedRank (priority task)))
        (derive tza (scenarioA tza) (newDate tza 2024 2 10) ByCreatedAt None).
Proof.
  assert (E : derive tza (scenarioA tza) (newDate tza 2024 2 10)
                     ByCreatedAt None
              = [ sampleTask "1" high (newDate tza 2024 2 10) None None;
                  sampleTask "2" crucial (newDate tza 2024 2 10) None None ]).
  { rewrite derive_eq. unfold retained, scenarioA. cbn [truthy filter].
    rewrite !onSelectedDay_eqb.
    cbn [relevantDate sampleTask createdAt dueDate].
    rewrite !localDay_newDate by lia.
    change (MakeDay 2024 2 10 =? MakeDay 2024 2 10) with true.
    change (MakeDay 2024 2 11 =? MakeDay 2024 2 10) with false.
    reflexivity. }
  rewrite E. split; [reflexivity |].
  intros S. inversion S as [| a l _ F]; subst.
  inversion F as [| b l' H _]; subst.
  unfold ascendingBy in H. cbn in H. lia.
Qed.

(** ** Which tasks are in the view *)




(** C6, as stated, fails for the empty string: it is not [null], yet
    [if (activeCategory)] takes it for no filter, and tasks of any category
    or of none stay in the view. *)
Lemma empty_category_filters_nothing :
  In (sampleTask "1" normal noon10March None (Some "work"%string))
     (derive 0 categorised noon10March ByDueDate (Some ""%string))
  /\ In (sampleTask "2" normal noon10March None None)
        (derive 0 categorised noon10March ByDueDate (Some ""%string))
  /\ ~ (forall task,
          In task (derive 0 categorised noon10March ByDueDate (Some ""%string))
          -> category task = Some ""%string).
Proof.
  assert (H1 : In (sampleTask "1" normal noon10March None (Some "work"%string))
                  (derive 0 categorised noon10March ByDueDate (Some ""%string)))
    by (vm_compute; left; reflexivity).
  split; [exact H1 |].
  split; [vm_compute; right; left; reflexivity |].
  intros H. specialize (H _ H1). discriminate H.
Qed.

(** C6, amended.  For a category filter that is a non-empty string, every
    task in the view has exactly that category; a task without a category is
    therefore not in the view. *)
Theorem derive_category tza T d field c task :
  c <> ""%string ->
  In task (derive tza T d field (Some c)) ->
  category task = Some c.
Proof.
  intros Hc. rewrite derive_eq, sort_In, retained_In.
  destruct c as [| ch c]; [congruence |]. cbn [truthy]. tauto.
Qed.

Lemma derive_category_witness :
  category (sampleTask "1" normal noon10March None (Some "work"%string))
  = Some "work"%string.
Proof.
  apply (derive_category 0 categorised noon10March ByDueDate "work").
  - discriminate.
  - vm_compute. left. reflexivity.
Defined.

(** C8.  The sort is stable: for every rank, the tasks of that rank stand in
    the view in the order they have among the retained tasks of the
    collection.  This holds for the rank of the specification and for the
    rank the comparison function computes. *)
Theorem derive_stable tza T d field c r :
  filter (fun task => claimedRank (priority task) =? r)
         (derive tza T d field c)
  = filter (fun task => claimedRank (priority task) =? r)
           (retained tza T d field c)
  /\ filter (fun task => effectiveRank (priority task) =? r)
            (derive tza T d field c)
     = filter (fun task => effectiveRank (priority task) =? r)
              (retained tza T d field c).
Proof.
  rewrite derive_eq. split.
  - apply sort_filter. intros a b Ha Hb. apply Z.eqb_eq in Ha, Hb.
    rewrite comparePriority_rank.
    destruct (priority a), (priority b); cbn in *; lia.
  - apply sort_stable. intros a b. apply comparePriority_rank.
Qed.

(** C9.  The view the effect stores is a function of the task collection,
    the selected date, the date field and the category filter alone: two
    screens that agree on these four get the same view whatever else they
    hold, the view is the one [derive] gives for the four, and running the
    effect again on its own result changes nothing. *)
Theorem filterEffect_pure tza s1 s2 :
  tasks s1 = tasks s2 ->
  currentDate s1 = currentDate s2 ->
  selectedFilterType s1 = selectedFilterType s2 ->
  activeCategory s1 = activeCategory s2 ->
  filteredTasks (filterEffect tza s1) = filteredTasks (filterEffect tza s2)
  /\ filteredTasks (filterEffect tza s1)
     = derive tza (tasks s1) (currentDate s1) (selectedFilterType s1)
              (activeCategory s1)
  /\ filteredTasks (filterEffect tza (filterEffect tza s1))
     = filteredTasks (filterEffect tza s1).
Proof.
  intros HT Hd Hf Hc.
  rewrite derive_eq, !filterEffect_filteredTasks.
  destruct (filterEffect_inputs tza s1) as [-> [-> [-> [-> _]]]].
  rewrite HT, Hd, Hf, Hc. repeat split.
Qed.

Lemma filterEffect_pure_witness :
  filteredTasks (filterEffect 0 (sampleState categorised))
  = filteredTasks
      (filterEffect 0
         (mkState categorised (scenarioA 0) ByDueDate None (Some "old"%string)
                  [mkCategory "work" "Work"] noon10March)).
Proof.
  apply filterEffect_pure; reflexivity.
Defined.

End DeriveFacts.

(** * The toggle handler *)

Module ToggleFacts.

Lemma updatedTasks_nth taskId T i task :
  nth_error T i = Some task ->
  nth_error (updatedTasks taskId T) i
  = Some (if String.eqb (id task) taskId then toggleCompleted task else task).
Proof.
  intros H. unfold updatedTasks. rewrite nth_error_map, H. reflexivity.
Qed.

Lemma updatedTasks_absent taskId T :
  (forall task, In task T -> id task <> taskId) -> updatedTasks taskId T = T.
Proof.
  intros H. unfold updatedTasks. rewrite <- (map_id T) at 2.
  apply map_ext_in. intros task Hin.
  destruct (String.eqb_spec (id task) taskId) as [E | N]; [| reflexivity].
  exfalso. exact (H task Hin E).
Qed.

Lemma handler_tasks saveOk taskId s :
  tasks (fst (fst (handleToggleTaskCompletion saveOk taskId s)))
  = updatedTasks taskId (tasks s).
Proof.
  unfold handleToggleTaskCompletion.
  destruct (saveOk (updatedTasks taskId (tasks s))); reflexivity.
Qed.

Lemma handler_settled saveOk taskId s :
  snd (handleToggleTaskCompletion saveOk taskId s) = Fulfilled.
Proof.
  unfold handleToggleTaskCompletion.
  destruct (saveOk (updatedTasks taskId (tasks s))); reflexivity.
Qed.

Example toggle_first_of_two :
  map completed
      (tasks (fst (fst (handleToggleTaskCompletion
                          (fun _ => true) "1" (sampleState categorised)))))
  = [true; false].
Proof. reflexivity. Qed.

(** C10.  The handler replaces the collection by one of the same length in
    which, position by position, every field of every task is what it was,
    except [completed], which is negated for the tasks with the given id and
    kept for all others; a task with another id is the very task it was. *)
Theorem toggle_changes_completed_only saveOk taskId s :
  List.length (tasks (fst (fst (handleToggleTaskCompletion saveOk taskId s))))
  = List.length (tasks s)
  /\ forall i task,
       nth_error (tasks s) i = Some task ->
       exists task',
         nth_error
           (tasks (fst (fst (handleToggleTaskCompletion saveOk taskId s)))) i
         = Some task'
         /\ id task' = id task
         /\ title task' = title task
         /\ description task' = description task
         /\ createdAt task' = createdAt task
         /\ dueDate task' = dueDate task
         /\ priority task' = priority task
         /\ category task' = category task
         /\ completed task'
            = (if String.eqb (id task) taskId then negb (completed task)
               else completed task)
         /\ (id task <> taskId -> task' = task).
Proof.
  rewrite handler_tasks. split.
  - unfold updatedTasks. apply length_map.
  - intros i task H. eexists. split; [apply updatedTasks_nth; exact H |].
    destruct (String.eqb_spec (id task) taskId) as [E | N]; cbn.
    + repeat split; try reflexivity. intros N. contradiction.
    + repeat split; reflexivity.
Qed.

(** C7.  With an id that no task of the collection has, the handler leaves
    the whole state as it was and its promise is fulfilled; when the save
    succeeds, the only thing it does is to save the unchanged collection (no
    error is logged, no alert shown). *)
Theorem toggle_absent_id saveOk taskId s :
  (forall task, In task (tasks s) -> id task <> taskId) ->
  fst (fst (handleToggleTaskCompletion saveOk taskId s)) = s
  /\ snd (handleToggleTaskCompletion saveOk taskId s) = Fulfilled
  /\ (saveOk (tasks s) = true ->
      snd (fst (handleToggleTaskCompletion saveOk taskId s))
      = [SaveTasks (tasks s)]).
Proof.
  intros H. unfold handleToggleTaskCompletion.
  rewrite (updatedTasks_absent taskId (tasks s) H).
  assert (E : setTasks (tasks s) s = s) by (destruct s; reflexivity).
  rewrite E.
  destruct (saveOk (tasks s)); cbn; repeat split; try reflexivity.
  intros F. discriminate F.
Qed.

Lemma toggle_absent_id_witness :
  fst (fst (handleToggleTaskCompletion (fun _ => true) "7"
                                       (sampleState categorised)))
  = sampleState categorised.
Proof.
  apply (toggle_absent_id (fun _ => true) "7" (sampleState categorised)).
  intros task [<- | [<- | []]]; discriminate.
Defined.

(** C4, as stated, fails in its second half: when the save throws, the
    handler catches the exception, so its promise is fulfilled exactly as
    when the save succeeds, and nothing tells the caller of the failure. *)
Lemma save_failure_not_returned :
  map completed
      (tasks (fst (fst (handleToggleTaskCompletion
                          (fun _ => false) "1" (sampleState categorised)))))
  = [true; false]
  /\ snd (handleToggleTaskCompletion (fun _ => false) "1"
                                     (sampleState categorised))
     = snd (handleToggleTaskCompletion (fun _ => true) "1"
                                       (sampleState categorised))
  /\ snd (handleToggleTaskCompletion (fun _ => false) "1"
                                     (sampleState categorised))
     <> Rejected.
Proof. repeat split. discriminate. Qed.

(** C4, amended.  When the save of the updated collection fails, the state
    holds the updated collection all the same (every task with the given id
    has its flag flipped, nothing is rolled back); the handler logs the error
    and shows the alert "Failed to update task status", and its promise is
    fulfilled: the failure goes to the user, not to the caller. *)
Theorem toggle_save_failure saveOk taskId s :
  saveOk (updatedTasks taskId (tasks s)) = false ->
  tasks (fst (fst (handleToggleTaskCompletion saveOk taskId s)))
  = updatedTasks taskId (tasks s)
  /\ (forall i task,
        nth_error (tasks s) i = Some task -> id task = taskId ->
        exists task',
          nth_error
            (tasks (fst (fst (handleToggleTaskCompletion saveOk taskId s)))) i
          = Some task'
          /\ id task' = taskId
          /\ completed task' = negb (completed task))
  /\ snd (fst (handleToggleTaskCompletion saveOk taskId s))
     = [ SaveTasks (updatedTasks taskId (tasks s));
         ConsoleError "Error updating task:";
         AlertAlert "Error" "Failed to update task status" ]
  /\ snd (handleToggleTaskCompletion saveOk taskId s) = Fulfilled.
Proof.
  intros F. rewrite handler_tasks, handler_settled.
  split; [reflexivity |]. split; [| split; [| reflexivity]].
  - intros i task H E. eexists. split; [apply updatedTasks_nth; exact H |].
    apply String.eqb_eq in E. rewrite E. cbn. apply String.eqb_eq in E.
    split; [exact E | reflexivity].
  - unfold handleToggleTaskCompletion. rewrite F. reflexivity.
Qed.

Lemma toggle_save_failure_witness :
  tasks (fst (fst (handleToggleTaskCompletion (fun _ => false) "1"
                                              (sampleState categorised))))
  = updatedTasks "1" categorised.
Proof.
  apply (toggle_save_failure (fun _ => false) "1" (sampleState categorised)).
  reflexivity.
Defined.

End ToggleFacts.

(** * More about the sort *)

Module SortCommutes.
Import SortFacts.

Section Commutes.

Context {A : Type}.
Variable comparefn : A -> A -> Z.

Lemma filter_comm (P Q : A -> bool) l :
  filter P (filter Q l) = filter Q (filter P l).
Proof.
  induction l as [| x l IH]; [reflexivity |]. cbn [filter].
  destruct (P x) eqn:Px, (Q x) eqn:Qx; cbn [filter];
    rewrite ?Px, ?Qx, IH; reflexivity.
Qed.

Lemma filter_map_comm (P : A -> bool) (g : A -> A) l :
  (forall a, P (g a) = P a) -> filter P (map g l) = map g (filter P l).
Proof.
  intros H. induction l as [| x l IH]; [reflexivity |].
  cbn [map filter]. rewrite H, IH. destruct (P x); reflexivity.
Qed.

(** A change of the elements that the comparison does not see goes through
    the sort. *)
Lemma insert_map (g : A -> A) x l :
  (forall a b, comparefn (g a) (g b) = comparefn a b) ->
  insert comparefn (g x) (map g l) = map g (insert comparefn x l).
Proof.
  intros H. induction l as [| y l IH]; [reflexivity |].
  cbn [map insert]. rewrite H.
  destruct (comparefn x y <=? 0); [reflexivity |].
  cbn [map]. rewrite IH. reflexivity.
Qed.

Lemma sort_map (g : A -> A) l :
  (forall a b, comparefn (g a) (g b) = comparefn a b) ->
  sort comparefn (map g l) = map g (sort comparefn l).
Proof.
  intros H. induction l as [| x l IH]; [reflexivity |].
  cbn [map sort fold_right]. fold (sort comparefn (map g l)).
  fold (sort comparefn l). rewrite IH. apply insert_map. exact H.
Qed.

Variable key : A -> Z.
Hypothesis comparefn_key : forall a b, comparefn a b = key a - key b.

Lemma filter_sorted (P : A -> bool) l :
  StronglySorted (ascendingBy key) l ->
  StronglySorted (ascendingBy key) (filter P l).
Proof.
  induction 1 as [| x l S IH F]; cbn [filter]; [constructor |].
  destruct (P x); [| exact IH].
  constructor; [exact IH |].
  rewrite Forall_forall in *. intros y Hy. apply filter_In in Hy.
  apply F. tauto.
Qed.

(** Leaving elements out before the sort or after it gives the same. *)
Lemma sort_filter_comm (P : A -> bool) l :
  filter P (sort comparefn l) = sort comparefn (filter P l).
Proof.
  apply (stable_sort_unique comparefn key comparefn_key).
  - apply filter_sorted. apply (sort_sorted comparefn key comparefn_key).
  - intros r. rewrite filter_comm.
    rewrite (sort_stable comparefn key comparefn_key).
    apply filter_comm.
Qed.

Lemma app_sorted l1 l2 :
  StronglySorted (ascendingBy key) l1 ->
  StronglySorted (ascendingBy key) l2 ->
  (forall a b, In a l1 -> In b l2 -> key a <= key b) ->
  StronglySorted (ascendingBy key) (l1 ++ l2).
Proof.
  intros S1 S2 H. induction S1 as [| x l1 S1 IH F]; [exact S2 |].
  cbn [app]. constructor.
  - apply IH. intros a b Ha Hb. apply H; [right; exact Ha | exact Hb].
  - apply Forall_app. split; [exact F |].
    apply Forall_forall. intros b Hb. apply H; [left; reflexivity | exact Hb].
Qed.

Lemma class_sorted r l :
  StronglySorted (ascendingBy key) (filter (fun a => key a =? r) l).
Proof.
  induction l as [| x l IH]; cbn [filter]; [constructor |].
  destruct (Z.eqb_spec (key x) r) as [E | N]; [| exact IH].
  constructor; [exact IH |].
  apply Forall_forall. intros y Hy. apply filter_In in Hy.
  destruct Hy as [_ Hy]. apply Z.eqb_eq in Hy. unfold ascendingBy. lia.
Qed.

Lemma class_of_class r r' l :
  filter (fun a => key a =? r) (filter (fun a => key a =? r') l)
  = if r =? r' then filter (fun a => key a =? r') l else [].
Proof.
  induction l as [| x l IH]; cbn [filter]; [destruct (r =? r'); reflexivity |].
  destruct (Z.eqb_spec (key x) r') as [E | N]; cbn [filter]; rewrite IH.
  - rewrite E. destruct (r' =? r) eqn:E1; rewrite Z.eqb_sym in E1;
      rewrite E1; reflexivity.
  - reflexivity.
Qed.

End Commutes.

End SortCommutes.

(** * The view and the handlers together *)

Module ViewFacts.
Import JSDate DateFacts SortFacts SortCommutes DeriveFacts ToggleFacts.

Lemma filter_none {A : Type} (P : A -> bool) l :
  (forall a, In a l -> P a = false) -> filter P l = [].
Proof.
  intros H. induction l as [| x l IH]; [reflexivity |]. cbn [filter].
  rewrite (H x) by (left; reflexivity). apply IH.
  intros a Ha. apply H. right. exact Ha.
Qed.

Lemma effectiveRank_range p :
  effectiveRank p = 1 \/ effectiveRank p = 2 \/ effectiveRank p = 3.
Proof. destruct p; cbn; tauto. Qed.

(** X1.  The view is the high tasks, then the crucial, normal and low tasks,
    then the optional tasks, each group in the order its tasks have in the
    collection among those the date and category filters keep. *)
Theorem derive_three_groups tza T d field c :
  derive tza T d field c
  = filter (fun task => effectiveRank (priority task) =? 1)
           (retained tza T d field c)
    ++ filter (fun task => effectiveRank (priority task) =? 2)
              (retained tza T d field c)
    ++ filter (fun task => effectiveRank (priority task) =? 3)
              (retained tza T d field c).
Proof.
  rewrite derive_eq. generalize (retained tza T d field c) as R. intros R.
  set (key := fun task : Task => effectiveRank (priority task)).
  symmetry.
  apply (stable_sort_unique comparePriority key comparePriority_rank).
  - apply app_sorted; [apply class_sorted | |].
    + apply app_sorted; [apply class_sorted | apply class_sorted |].
      intros a b Ha Hb. apply filter_In in Ha, Hb.
      destruct Ha as [_ Ha]. destruct Hb as [_ Hb].
      apply Z.eqb_eq in Ha, Hb. unfold key. lia.
    + intros a b Ha Hb. apply filter_In in Ha. destruct Ha as [_ Ha].
      apply Z.eqb_eq in Ha. apply in_app_or in Hb.
      destruct Hb as [Hb | Hb]; apply filter_In in Hb;
        destruct Hb as [_ Hb]; apply Z.eqb_eq in Hb; unfold key; lia.
  - intros r. rewrite !filter_app, !class_of_class.
    destruct (Z.eqb_spec r 1) as [-> | N1]; [cbn; apply app_nil_r |].
    destruct (Z.eqb_spec r 2) as [-> | N2]; [cbn; apply app_nil_r |].
    destruct (Z.eqb_spec r 3) as [-> | N3]; [reflexivity |].
    cbn [app]. symmetry. apply filter_none. intros a _.
    apply Z.eqb_neq. unfold key.
    destruct (effectiveRank_range (priority a)) as [E | [E | E]]; lia.
Qed.

(** What the date and category filters look at is not changed by a flip of
    [completed]. *)
Lemma retained_updatedTasks tza taskId T d field c :
  retained tza (updatedTasks taskId T) d field c
  = updatedTasks taskId (retained tza T d field c).
Proof.
  assert (Hday : forall a b task,
             onSelectedDay tza a b field
               (if String.eqb (id task) taskId then toggleCompleted task
                else task)
             = onSelectedDay tza a b field task)
    by (intros a b task; destruct (String.eqb (id task) taskId); reflexivity).
  unfold retained, updatedTasks.
  destruct (truthy c) as [c' |].
  - rewrite filter_map_comm by apply Hday.
    apply filter_map_comm. intros task.
    destruct (String.eqb (id task) taskId); reflexivity.
  - apply filter_map_comm. apply Hday.
Qed.

Lemma handler_frame saveOk taskId s :
  let s' := fst (fst (handleToggleTaskCompletion saveOk taskId s)) in
  currentDate s' = currentDate s
  /\ selectedFilterType s' = selectedFilterType s
  /\ activeCategory s' = activeCategory s
  /\ activeCategoryName s' = activeCategoryName s
  /\ categories s' = categories s.
Proof.
  unfold handleToggleTaskCompletion.
  destruct (saveOk (updatedTasks taskId (tasks s))); cbn; tauto.
Qed.

(** X2.  Toggling a task and re-running the filter effect gives the view of
    before with the flag of that task flipped: no task enters or leaves the
    view and none changes its place. *)
Theorem view_after_toggle tza saveOk taskId s :
  filteredTasks
    (filterEffect tza (fst (fst (handleToggleTaskCompletion saveOk taskId s))))
  = updatedTasks taskId (filteredTasks (filterEffect tza s)).
Proof.
  rewrite !filterEffect_filteredTasks, handler_tasks.
  destruct (handler_frame saveOk taskId s) as [-> [-> [-> _]]].
  rewrite retained_updatedTasks. unfold updatedTasks.
  apply sort_map. intros a b.
  destruct (String.eqb (id a) taskId), (String.eqb (id b) taskId);
    reflexivity.
Qed.

(** X3.  Deleting a task and re-running the filter effect gives the view of
    before without the tasks of that id; the others keep their places. *)
Theorem view_after_delete tza saveOk taskId s :
  filteredTasks
    (filterEffect tza
       (del_state (handleDeleteTask (Some DeleteButton) saveOk taskId s)))
  = remainingTasks taskId (filteredTasks (filterEffect tza s)).
Proof.
  rewrite !filterEffect_filteredTasks. cbn.
  set (key := fun task : Task => effectiveRank (priority task)).
  unfold remainingTasks.
  rewrite (sort_filter_comm comparePriority key comparePriority_rank).
  f_equal. unfold retained.
  destruct (truthy (activeCategory s)) as [c' |].
  - rewrite (filter_comm (fun task => negb (id task =? taskId)%string)
                         (fun task => strictEq (category task) c')).
    f_equal. apply filter_comm.
  - apply filter_comm.
Qed.

Lemma setHours_localDay tza d d' hour min sec ms :
  localDay tza d = localDay tza d' ->
  setHours tza d hour min sec ms = setHours tza d' hour min sec ms.
Proof. unfold localDay, setHours. intros ->. reflexivity. Qed.

(** X4.  The view depends on the selected date through its local calendar
    day only: two moments of the same day give the same view. *)
Theorem derive_same_day_same_view tza T d d' field c :
  localDay tza d = localDay tza d' ->
  derive tza T d field c = derive tza T d' field c.
Proof.
  intros H. rewrite !derive_eq. unfold retained.
  rewrite (setHours_localDay tza d d' 0 0 0 0 H).
  rewrite (setHours_localDay tza d d' 23 59 59 999 H). reflexivity.
Qed.

Lemma derive_same_day_same_view_witness :
  derive 10800000 categorised noon10March ByDueDate None
  = derive 10800000 categorised (noon10March + 3600000) ByDueDate None.
Proof.
  apply derive_same_day_same_view. vm_compute. reflexivity.
Defined.

(** X5.  When no task of the collection has a due date, switching the date
    filter type does not change the view. *)
Theorem view_after_toggleDateFilterType tza s :
  (forall task, In task (tasks s) -> dueDate task = None) ->
  filteredTasks (filterEffect tza (toggleDateFilterType s))
  = filteredTasks (filterEffect tza s).
Proof.
  intros H. rewrite !filterEffect_filteredTasks. cbn.
  f_equal. unfold retained.
  assert (E : forall a b f f',
             filter (onSelectedDay tza a b f) (tasks s)
             = filter (onSelectedDay tza a b f') (tasks s)).
  { intros a b f f'. apply filter_ext_in. intros task Hin.
    unfold onSelectedDay, relevantDate. rewrite (H task Hin).
    destruct f, f'; reflexivity. }
  rewrite (E _ _ _ (selectedFilterType s)). reflexivity.
Qed.

Lemma view_after_toggleDateFilterType_witness :
  filteredTasks (filterEffect 0 (toggleDateFilterType (sampleState categorised)))
  = filteredTasks (filterEffect 0 (sampleState categorised)).
Proof.
  apply view_after_toggleDateFilterType.
  intros task [<- | [<- | []]]; reflexivity.
Defined.

End ViewFacts.

(** * Toggling and deleting *)

Module MutationFacts.
Import ToggleFacts.

Lemma toggleCompleted_twice task : toggleCompleted (toggleCompleted task) = task.
Proof. destruct task. unfold toggleCompleted. cbn. rewrite negb_involutive. reflexivity. Qed.

Lemma updatedTasks_twice taskId T :
  updatedTasks taskId (updatedTasks taskId T) = T.
Proof.
  unfold updatedTasks. rewrite map_map. rewrite <- (map_id T) at 2.
  apply map_ext. intros task.
  destruct (String.eqb (id task) taskId) eqn:E; cbn [id toggleCompleted].
  - rewrite E. apply toggleCompleted_twice.
  - rewrite E. reflexivity.
Qed.

Lemma updatedTasks_ids taskId T : map id (updatedTasks taskId T) = map id T.
Proof.
  unfold updatedTasks. rewrite map_map. apply map_ext. intros task.
  destruct (String.eqb (id task) taskId); reflexivity.
Qed.

Lemma handler_state saveOk taskId s :
  fst (fst (handleToggleTaskCompletion saveOk taskId s))
  = setTasks (updatedTasks taskId (tasks s)) s.
Proof.
  unfold handleToggleTaskCompletion.
  destruct (saveOk (updatedTasks taskId (tasks s))); reflexivity.
Qed.

Lemma setTasks_same s : setTasks (tasks s) s = s.
Proof. destruct s. reflexivity. Qed.

Lemma setTasks_setTasks v w s : setTasks v (setTasks w s) = setTasks v s.
Proof. reflexivity. Qed.

(** X6.  Toggling the same task twice brings the whole state back, whether
    or not the saves succeed. *)
Theorem toggle_twice saveOk saveOk' taskId s :
  fst (fst (handleToggleTaskCompletion saveOk' taskId
              (fst (fst (handleToggleTaskCompletion saveOk taskId s)))))
  = s.
Proof.
  rewrite !handler_state. cbn [tasks setTasks].
  rewrite setTasks_setTasks, updatedTasks_twice. apply setTasks_same.
Qed.

Lemma remainingTasks_In taskId T task :
  In task (remainingTasks taskId T) <-> In task T /\ id task <> taskId.
Proof.
  unfold remainingTasks. rewrite filter_In, negb_true_iff.
  destruct (String.eqb_spec (id task) taskId) as [E | N].
  - split; [intros [_ H]; discriminate | intros [_ H]; contradiction].
  - tauto.
Qed.

Lemma remainingTasks_absent taskId T :
  ~ In taskId (map id T) -> remainingTasks taskId T = T.
Proof.
  intros H. induction T as [| task T IH]; [reflexivity |].
  cbn [remainingTasks filter]. fold (remainingTasks taskId T).
  destruct (String.eqb_spec (id task) taskId) as [E | N]; cbn [negb].
  - exfalso. apply H. left. exact E.
  - f_equal. apply IH. intros Hin. apply H. right. exact Hin.
Qed.

Lemma remainingTasks_length taskId T :
  NoDup (map id T) -> In taskId (map id T) ->
  List.length T = S (List.length (remainingTasks taskId T)).
Proof.
  induction T as [| task T IH]; intros U Hin; [destruct Hin |].
  cbn [map] in U. inversion U as [| x l Hx U']; subst.
  cbn [remainingTasks filter]. fold (remainingTasks taskId T).
  destruct (String.eqb_spec (id task) taskId) as [E | N]; cbn [negb].
  - rewrite remainingTasks_absent by (rewrite <- E; exact Hx). reflexivity.
  - cbn [List.length]. f_equal. apply IH; [exact U' |].
    destruct Hin as [Hin | Hin]; [contradiction | exact Hin].
Qed.

Lemma NoDup_map_filter {A B : Type} (f : A -> B) (P : A -> bool) l :
  NoDup (map f l) -> NoDup (map f (filter P l)).
Proof.
  induction l as [| x l IH]; intros U; [constructor |].
  cbn [map] in U. inversion U as [| y l' Hx U']; subst.
  cbn [filter]. destruct (P x); [| apply IH; exact U'].
  cbn [map]. constructor; [| apply IH; exact U'].
  intros Hin. apply Hx. apply in_map_iff in Hin.
  destruct Hin as [a [E Ha]]. apply filter_In in Ha.
  apply in_map_iff. exists a. tauto.
Qed.

(** X7.  A confirmed deletion in a collection with unique ids, one of which
    is the given id, removes exactly one task: the collection gets shorter by
    one, no task with the id remains, and the tasks with other ids are those
    of before. *)
Theorem delete_removes_one saveOk taskId s :
  uniqueIds (tasks s) ->
  In taskId (map id (tasks s)) ->
  List.length (tasks s)
  = S (List.length
         (tasks (del_state
                   (handleDeleteTask (Some DeleteButton) saveOk taskId s))))
  /\ forall task,
       In task (tasks (del_state
                         (handleDeleteTask (Some DeleteButton) saveOk taskId s)))
       <-> In task (tasks s) /\ id task <> taskId.
Proof.
  intros U Hin. cbn. split.
  - apply remainingTasks_length; assumption.
  - intros task. apply remainingTasks_In.
Qed.

Lemma delete_removes_one_witness :
  List.length (tasks (sampleState categorised))
  = S (List.length
         (tasks (del_state
                   (handleDeleteTask (Some DeleteButton) (fun _ => true) "2"
                                     (sampleState categorised))))).
Proof.
  apply (delete_removes_one (fun _ => true) "2" (sampleState categorised)).
  - unfold uniqueIds. cbn. repeat constructor.
    + intros [H | []]. discriminate H.
    + intros [].
  - right. left. reflexivity.
Defined.

(** X8.  Unless the Delete button of the dialog is pressed, the handler
    changes nothing and saves nothing: the state is the one of before and
    the confirmation dialog is its only effect. *)
Theorem delete_needs_confirmation pressed saveOk taskId s :
  pressed <> Some DeleteButton ->
  del_state (handleDeleteTask pressed saveOk taskId s) = s
  /\ (forall saved,
        ~ In (SaveTasks saved)
             (del_effects (handleDeleteTask pressed saveOk taskId s)))
  /\ del_onPress (handleDeleteTask pressed saveOk taskId s) = None.
Proof.
  intros H. destruct pressed as [[|] |]; [| contradiction |]; cbn;
    (split; [reflexivity |]); (split; [| reflexivity]);
    intros saved [F | []]; discriminate F.
Qed.

Lemma delete_needs_confirmation_witness :
  del_state (handleDeleteTask (Some CancelButton) (fun _ => true) "1"
                              (sampleState categorised))
  = sampleState categorised.
Proof.
  apply (delete_needs_confirmation (Some CancelButton) (fun _ => true) "1").
  discriminate.
Defined.

(** X9.  When the save fails after a confirmed deletion, the tasks are gone
    from the state all the same, and the failure is neither logged nor shown:
    the effects are the dialog and the save, the handler's promise is
    fulfilled, and only the promise of the button's callback is rejected. *)
Theorem delete_save_failure_silent saveOk taskId s :
  saveOk (remainingTasks taskId (tasks s)) = false ->
  tasks (del_state (handleDeleteTask (Some DeleteButton) saveOk taskId s))
  = remainingTasks taskId (tasks s)
  /\ (forall e,
        In e (del_effects
                (handleDeleteTask (Some DeleteButton) saveOk taskId s)) ->
        e = AlertAlert "Delete Task"
                       "Are you sure you want to delete this task?"
        \/ e = SaveTasks (remainingTasks taskId (tasks s)))
  /\ del_handler (handleDeleteTask (Some DeleteButton) saveOk taskId s)
     = Fulfilled
  /\ del_onPress (handleDeleteTask (Some DeleteButton) saveOk taskId s)
     = Some Rejected.
Proof.
  intros F. cbn. rewrite F. repeat split.
  intros e [<- | [<- | []]]; tauto.
Qed.

Lemma delete_save_failure_silent_witness :
  del_onPress (handleDeleteTask (Some DeleteButton) (fun _ => false) "1"
                                (sampleState categorised))
  = Some Rejected.
Proof.
  apply (delete_save_failure_silent (fun _ => false) "1"
                                    (sampleState categorised)).
  reflexivity.
Defined.

(** X10.  Toggling and deleting keep the ids of the collection unique. *)
Theorem handlers_keep_ids_unique saveOk pressed taskId s :
  uniqueIds (tasks s) ->
  uniqueIds (tasks (fst (fst (handleToggleTaskCompletion saveOk taskId s))))
  /\ uniqueIds (tasks (del_state
                         (handleDeleteTask pressed saveOk taskId s))).
Proof.
  intros U. unfold uniqueIds in *. split.
  - rewrite handler_tasks, updatedTasks_ids. exact U.
  - destruct pressed as [[|] |]; cbn; try exact U.
    apply NoDup_map_filter. exact U.
Qed.

Lemma handlers_keep_ids_unique_witness :
  uniqueIds (tasks (fst (fst (handleToggleTaskCompletion
                                (fun _ => true) "1"
                                (sampleState categorised))))).
Proof.
  apply (handlers_keep_ids_unique (fun _ => true) None "1"
                                  (sampleState categorised)).
  unfold uniqueIds. cbn. repeat constructor.
  - intros [H | []]. discriminate H.
  - intros [].
Defined.

Lemma remainingTasks_updatedTasks taskId T :
  remainingTasks taskId (updatedTasks taskId T) = remainingTasks taskId T.
Proof.
  induction T as [| task T IH]; [reflexivity |].
  cbn [updatedTasks map remainingTasks filter].
  fold (updatedTasks taskId T). fold (remainingTasks taskId (updatedTasks taskId T)).
  fold (remainingTasks taskId T). rewrite IH.
  destruct (String.eqb (id task) taskId) eqn:E; cbn [id toggleCompleted];
    rewrite E; reflexivity.
Qed.

Lemma remainingTasks_twice taskId T :
  remainingTasks taskId (remainingTasks taskId T) = remainingTasks taskId T.
Proof.
  apply remainingTasks_absent. intros Hin. apply in_map_iff in Hin.
  destruct Hin as [task [E Hin]]. apply remainingTasks_In in Hin.
  tauto.
Qed.

Lemma delete_state saveOk taskId s :
  del_state (handleDeleteTask (Some DeleteButton) saveOk taskId s)
  = setTasks (remainingTasks taskId (tasks s)) s.
Proof. reflexivity. Qed.

(** X11.  A task that was deleted stays deleted and cannot be toggled back:
    deleting the same id again, or toggling it, leaves the state as it is;
    and deleting after a toggle of the same id gives the state a deletion
    alone gives. *)
Theorem delete_absorbs saveOk1 saveOk2 taskId s :
  del_state (handleDeleteTask (Some DeleteButton) saveOk2 taskId
               (del_state
                  (handleDeleteTask (Some DeleteButton) saveOk1 taskId s)))
  = del_state (handleDeleteTask (Some DeleteButton) saveOk1 taskId s)
  /\ fst (fst (handleToggleTaskCompletion saveOk2 taskId
                 (del_state
                    (handleDeleteTask (Some DeleteButton) saveOk1 taskId s))))
     = del_state (handleDeleteTask (Some DeleteButton) saveOk1 taskId s)
  /\ del_state (handleDeleteTask (Some DeleteButton) saveOk2 taskId
                  (fst (fst (handleToggleTaskCompletion saveOk1 taskId s))))
     = del_state (handleDeleteTask (Some DeleteButton) saveOk1 taskId s).
Proof.
  rewrite !handler_state, !delete_state. cbn [tasks setTasks].
  rewrite !setTasks_setTasks. split; [| split].
  - rewrite remainingTasks_twice. reflexivity.
  - f_equal. apply updatedTasks_absent. intros task Hin.
    apply remainingTasks_In in Hin. tauto.
  - rewrite remainingTasks_updatedTasks. reflexivity.
Qed.

Lemma updatedTasks_comm x y T :
  updatedTasks x (updatedTasks y T) = updatedTasks y (updatedTasks x T).
Proof.
  unfold updatedTasks. rewrite !map_map. apply map_ext. intros task.
  destruct (String.eqb (id task) x) eqn:Ex, (String.eqb (id task) y) eqn:Ey;
    cbn [id toggleCompleted]; rewrite ?Ex, ?Ey; reflexivity.
Qed.

Lemma updatedTasks_remainingTasks_comm x y T :
  updatedTasks x (remainingTasks y T) = remainingTasks y (updatedTasks x T).
Proof.
  unfold updatedTasks, remainingTasks. symmetry.
  apply SortCommutes.filter_map_comm. intros task.
  destruct (String.eqb (id task) x); reflexivity.
Qed.

(** X22.  The order in which two tasks are toggled, or one is toggled and
    another deleted, does not matter for the state reached. *)
Theorem handlers_commute saveOk1 saveOk2 saveOk3 saveOk4 x y s :
  fst (fst (handleToggleTaskCompletion saveOk2 x
              (fst (fst (handleToggleTaskCompletion saveOk1 y s)))))
  = fst (fst (handleToggleTaskCompletion saveOk4 y
                (fst (fst (handleToggleTaskCompletion saveOk3 x s)))))
  /\ fst (fst (handleToggleTaskCompletion saveOk2 x
                 (del_state
                    (handleDeleteTask (Some DeleteButton) saveOk1 y s))))
     = del_state
         (handleDeleteTask (Some DeleteButton) saveOk4 y
            (fst (fst (handleToggleTaskCompletion saveOk3 x s)))).
Proof.
  rewrite !handler_state, !delete_state. cbn [tasks setTasks].
  rewrite !setTasks_setTasks. split; f_equal.
  - apply updatedTasks_comm.
  - apply updatedTasks_remainingTasks_comm.
Qed.

End MutationFacts.

(** * Reading dates back *)

Module CalendarFacts.
Import JSDate DateFacts DateRangeFacts DeriveFacts SortFacts.

Lemma DayWithinYear_range t :
  0 <= DayWithinYear t < 365 + InLeapYear (YearFromTime t).
Proof.
  unfold DayWithinYear, YearFromTime.
  pose proof (YearFromDay_spec (Day t)) as S.
  rewrite DayFromYear_succ, InLeapYear_DaysInYear in S. lia.
Qed.

(** The month read from a time value is the one its day of the year lies
    in. *)
Lemma MonthFromTime_bounds t :
  monthStart (InLeapYear (YearFromTime t)) (MonthFromTime t)
  <= DayWithinYear t
  < monthStart (InLeapYear (YearFromTime t)) (MonthFromTime t + 1).
Proof.
  pose proof (DayWithinYear_range t) as R.
  pose proof (InLeapYear_cases (YearFromTime t)) as L.
  unfold MonthFromTime.
  remember (InLeapYear (YearFromTime t)) as leap eqn:E. clear E.
  remember (DayWithinYear t) as d eqn:E. clear E.
  repeat match goal with
    | |- context [if ?a <? ?b then _ else _] =>
        destruct (Z.ltb_spec a b); [month_bounds |]
    end.
  month_bounds.
Qed.

Lemma DateFromTime_range t :
  1 <= DateFromTime t <= daysInMonth (YearFromTime t) (MonthFromTime t).
Proof.
  pose proof (MonthFromTime_bounds t) as B.
  pose proof (MonthFromTime_range t) as M.
  rewrite monthStart_daysInMonth in B by exact M.
  unfold DateFromTime. lia.
Qed.

(** Building the day from the fields read off a time value gives back the
    day of that time value. *)
Lemma MakeDay_fields t :
  MakeDay (YearFromTime t) (MonthFromTime t) (DateFromTime t) = Day t.
Proof.
  rewrite MakeDay_in_year by apply MonthFromTime_range.
  unfold DateFromTime, DayWithinYear. lia.
Qed.




Lemma setHours_midnight tza t :
  setHours tza t 0 0 0 0 = localDay tza t * msPerDay - tza.
Proof. unfold setHours, localDay, UTC, MakeDate, MakeTime. lia. Qed.


Lemma dateRange_days tza now :
  - msPerDay <= tza <= msPerDay ->
  99 < getFullYear tza now <= 275759 ->
  dateRange tza now
  = map (fun k =>
           Some ((MakeDay (getFullYear tza now) (getMonth tza now) 1
                  + Z.of_nat k) * msPerDay - tza))
        (seq 0 (Z.to_nat (daysInMonth (getFullYear tza now)
                                      (getMonth tza now) + 15))).
Proof.
  intros Ht Hy. rewrite (dateRange_valid tza now Ht Hy).
  rewrite monthDates_then_fifteen by (lia || apply MonthFromTime_range).
  rewrite map_map. reflexivity.
Qed.

(** X14.  For a reference date in the years 100 to 275759, the local
    midnight of the reference date is in the range, at the place of its day
    of the month: the slider can always show today. *)
Theorem dateRange_has_today tza now :
  - msPerDay <= tza <= msPerDay ->
  99 < getFullYear tza now <= 275759 ->
  nth_error (dateRange tza now) (Z.to_nat (getDate tza now - 1))
  = Some (Some (setHours tza now 0 0 0 0)).
Proof.
  intros Ht Hy. rewrite (dateRange_days tza now Ht Hy).
  pose proof (DateFromTime_range (LocalTime tza now)) as R.
  fold (getDate tza now) in R. fold (getFullYear tza now) in R.
  fold (getMonth tza now) in R.
  rewrite nth_error_map, nth_error_seq.
  destruct (Nat.ltb_spec (Z.to_nat (getDate tza now - 1))
                         (Z.to_nat (daysInMonth (getFullYear tza now)
                                                (getMonth tza now) + 15)))
    as [L | G]; [| lia].
  cbn [option_map Nat.add]. f_equal. f_equal. rewrite setHours_midnight.
  f_equal. f_equal. unfold localDay.
  rewrite <- (MakeDay_fields (LocalTime tza now)).
  unfold getFullYear, getMonth, getDate in *. unfold MakeDay. lia.
Qed.

Lemma dateRange_has_today_witness :
  nth_error (dateRange 10800000 1734696000000) 19
  = Some (Some (setHours 10800000 1734696000000 0 0 0 0)).
Proof.
  apply (dateRange_has_today 10800000 1734696000000).
  - unfold msPerDay. lia.
  - vm_compute. split; [reflexivity | discriminate].
Defined.

(** X15.  For a reference date in the years 100 to 275759, every date of
    the range is a local midnight, and each one is on the local calendar day
    right after the day of the one before it: the range has no gap and no
    day twice, also across the end of the month and of the year. *)
Theorem dateRange_day_by_day tza now :
  - msPerDay <= tza <= msPerDay ->
  99 < getFullYear tza now <= 275759 ->
  (forall t, In (Some t) (dateRange tza now) -> setHours tza t 0 0 0 0 = t)
  /\ (forall i t t',
        nth_error (dateRange tza now) i = Some (Some t) ->
        nth_error (dateRange tza now) (S i) = Some (Some t') ->
        localDay tza t' = localDay tza t + 1).
Proof.
  intros Ht Hy. rewrite (dateRange_days tza now Ht Hy). split.
  - intros t Hin. apply in_map_iff in Hin. destruct Hin as [k [E _]].
    injection E as <-.
    rewrite setHours_midnight. unfold localDay, LocalTime, Day, msPerDay.
    divmod.
  - intros i t t'. rewrite !nth_error_map, !nth_error_seq.
    destruct (Nat.ltb i _), (Nat.ltb (S i) _); cbn [option_map];
      intros E E'; try discriminate.
    injection E as <-. injection E' as <-.
    unfold localDay, LocalTime, Day, msPerDay. divmod.
Qed.

Lemma dateRange_day_by_day_witness :
  setHours 10800000 (JSDate.newDate 10800000 2025 0 1) 0 0 0 0
  = JSDate.newDate 10800000 2025 0 1.
Proof.
  assert (H1 : - msPerDay <= 10800000 <= msPerDay)
    by (unfold msPerDay; lia).
  assert (H2 : 99 < getFullYear 10800000 1734696000000 <= 275759)
    by (vm_compute; split; [reflexivity | discriminate]).
  apply (proj1 (dateRange_day_by_day 10800000 1734696000000 H1 H2)).
  vm_compute. do 31 right. left. reflexivity.
Defined.

End CalendarFacts.

(** * Categories *)

Module CategoryFacts.
Import DeriveFacts MutationFacts.

Lemma truthy_Some v c : truthy v = Some c <-> v = Some c /\ c <> ""%string.
Proof.
  destruct v as [[| ch v] |]; cbn; split.
  - discriminate.
  - intros [E N]. injection E as <-. contradiction.
  - intros E. injection E as <-. split; [reflexivity | discriminate].
  - intros [E _]. exact E.
  - discriminate.
  - intros [E _]. discriminate E.
Qed.

Lemma truthy_None v : truthy v = None <-> v = None \/ v = Some ""%string.
Proof.
  destruct v as [[| ch v] |]; cbn; split; try tauto; try discriminate.
  - intros [E | E]; discriminate E.
Qed.

Lemma find_first {A : Type} (P : A -> bool) before x after :
  (forall y, In y before -> P y = false) -> P x = true ->
  find P (before ++ x :: after) = Some x.
Proof.
  intros Hb Hx. induction before as [| y before IH]; cbn [app find].
  - rewrite Hx. reflexivity.
  - rewrite (Hb y) by (left; reflexivity). apply IH.
    intros z Hz. apply Hb. right. exact Hz.
Qed.

(** X16.  Looking a category up: what is found is a category of the list
    with the requested id, and of several with that id the first; nothing is
    found exactly when the id is null or empty or no category has it. *)
Theorem getCategoryDetails_lookup s categoryId :
  (forall found,
     getCategoryDetails s categoryId = Some found ->
     In found (categories s) /\ categoryId = Some (cat_id found)
     /\ cat_id found <> ""%string)
  /\ (getCategoryDetails s categoryId = None
      <-> categoryId = None \/ categoryId = Some ""%string
          \/ forall cat, In cat (categories s) -> Some (cat_id cat) <> categoryId)
  /\ (forall before found after,
        categories s = before ++ found :: after ->
        categoryId = Some (cat_id found) ->
        cat_id found <> ""%string ->
        (forall cat, In cat before -> cat_id cat <> cat_id found) ->
        getCategoryDetails s categoryId = Some found).
Proof.
  unfold getCategoryDetails. split; [| split].
  - intros found H. destruct (truthy categoryId) as [c |] eqn:T;
      [| discriminate].
    apply truthy_Some in T. destruct T as [-> N].
    apply find_some in H. destruct H as [Hin E].
    apply String.eqb_eq in E. subst c. tauto.
  - destruct (truthy categoryId) as [c |] eqn:T.
    + apply truthy_Some in T. destruct T as [-> N]. split.
      * intros H. right. right. intros cat Hin E.
        apply (find_none _ _ H) in Hin. injection E as E.
        apply String.eqb_neq in Hin. contradiction.
      * intros [H | [H | H]]; [discriminate | congruence |].
        destruct (find _ (categories s)) as [found |] eqn:F; [| reflexivity].
        apply find_some in F. destruct F as [Hin E].
        apply String.eqb_eq in E. exfalso. apply (H found Hin). congruence.
    + apply truthy_None in T. tauto.
  - intros before found after Hc -> N Hb. cbn [truthy].
    destruct (cat_id found) as [| ch rest] eqn:E; [contradiction |].
    rewrite Hc. apply find_first.
    + intros cat Hin. apply String.eqb_neq. apply Hb. exact Hin.
    + apply String.eqb_eq. exact E.
Qed.

Example getCategoryDetails_first :
  getCategoryDetails
    (mkState [] [] ByDueDate None None sampleCategories noon10March)
    (Some "work"%string)
  = Some (mkCategory "work" "Work").
Proof. reflexivity. Qed.

Lemma nameAgrees_same s s' :
  activeCategory s' = activeCategory s ->
  activeCategoryName s' = activeCategoryName s ->
  categories s' = categories s ->
  nameAgrees s -> nameAgrees s'.
Proof.
  intros Ha Hn Hc H found. unfold getCategoryDetails.
  rewrite Ha, Hn, Hc. apply H.
Qed.

Lemma nameAgrees_filterEffect tza s :
  nameAgrees s -> nameAgrees (filterEffect tza s).
Proof.
  intros H. unfold filterEffect.
  destruct (List.length (tasks s) =? 0)%nat.
  - apply (nameAgrees_same s); [reflexivity .. | exact H].
  - destruct (truthy (activeCategory s)) as [c |] eqn:T.
    + destruct (getCategoryDetails s (activeCategory s)) as [found |] eqn:G.
      * intros found'. unfold getCategoryDetails in *. cbn.
        rewrite G. intros E. injection E as <-. reflexivity.
      * apply (nameAgrees_same s); [reflexivity .. | exact H].
    + intros found. unfold getCategoryDetails. cbn. rewrite T. discriminate.
Qed.

Lemma nameAgrees_handleCategoryFilter category s :
  nameAgrees (handleCategoryFilter category s).
Proof.
  unfold handleCategoryFilter, nameAgrees.
  destruct (truthy category) as [c |] eqn:T.
  - destruct (getCategoryDetails s category) as [found |] eqn:G;
      intros found'; unfold getCategoryDetails in *; cbn; rewrite G.
    + intros E. injection E as <-. reflexivity.
    + discriminate.
  - intros found. unfold getCategoryDetails. cbn. rewrite T. discriminate.
Qed.

Lemma nameAgrees_loadCategories stored s :
  nameAgrees s ->
  nameAgrees (fst (loadCategories (activeCategory s) stored s)).
Proof.
  intros H. destruct stored as [| | | parsed]; try exact H.
  unfold loadCategories, nameAgrees, getCategoryDetails.
  destruct (truthy (activeCategory s)) as [c |] eqn:T.
  - destruct (find _ parsed) as [found |] eqn:F; cbn; rewrite T, F.
    + intros found' E. injection E as <-. reflexivity.
    + discriminate.
  - cbn. rewrite T. discriminate.
Qed.

Lemma nameAgrees_applyEvent tza e s :
  loadIsCurrent e s -> nameAgrees s -> nameAgrees (applyEvent tza e s).
Proof.
  intros C H. destruct e; cbn [applyEvent].
  - rewrite handler_state. apply (nameAgrees_same s); [reflexivity .. | exact H].
  - destruct pressed as [[|] |]; exact H.
  - destruct loaded; exact H.
  - cbn in C. subst capturedActiveCategory.
    apply nameAgrees_loadCategories. exact H.
  - apply nameAgrees_handleCategoryFilter.
  - apply (nameAgrees_same s); [reflexivity .. | exact H].
  - apply (nameAgrees_same s); [reflexivity .. | exact H].
  - apply nameAgrees_filterEffect. exact H.
Qed.

(** A category load that completes after the active category has changed
    breaks the agreement: it was started at mount, with no active category,
    and so leaves the name of the category chosen meanwhile unset. *)
Example stale_load_leaves_name :
  ~ nameAgrees
      (applyEvents 0
         [CategoryChosen (Some "work"%string);
          CategoriesLoaded None (Parsed sampleCategories)]
         (initialState noon10March)).
Proof.
  intros H. specialize (H (mkCategory "work" "Work") eq_refl).
  discriminate H.
Qed.

(** X17.  Along whatever happens on the screen from the moment it is
    mounted (toggles, deletions, loads of tasks and categories, changes of
    filter and date, runs of the filter effect), as long as every category
    load completes while the active category is still the one it was started
    with: whenever the active category is one of the loaded categories, the
    name displayed is that category's name. *)
Theorem displayed_name_agrees tza today es :
  loadsAreCurrent tza es (initialState today) ->
  nameAgrees (applyEvents tza es (initialState today)).
Proof.
  assert (I : nameAgrees (initialState today)) by (intros found; discriminate).
  revert I. generalize (initialState today) as s.
  induction es as [| e es IH]; intros s I C; [exact I |].
  destruct C as [C1 C2]. cbn [applyEvents fold_left].
  apply IH; [| exact C2]. apply nameAgrees_applyEvent; assumption.
Qed.

Lemma displayed_name_agrees_witness :
  nameAgrees
    (applyEvents 0
       [CategoriesLoaded None (Parsed sampleCategories);
        CategoryChosen (Some "work"%string);
        CategoriesLoaded (Some "work"%string) (Parsed sampleCategories);
        FilterEffectRun]
       (initialState noon10March)).
Proof.
  apply (displayed_name_agrees 0 noon10March).
  cbn. repeat split.
Defined.

Lemma handleCategoryFilter_frame chosen s :
  tasks (handleCategoryFilter chosen s) = tasks s
  /\ currentDate (handleCategoryFilter chosen s) = currentDate s
  /\ selectedFilterType (handleCategoryFilter chosen s) = selectedFilterType s
  /\ activeCategory (handleCategoryFilter chosen s) = chosen
  /\ categories (handleCategoryFilter chosen s) = categories s.
Proof.
  unfold handleCategoryFilter.
  destruct (truthy chosen); [destruct (getCategoryDetails s chosen) |];
    cbn; tauto.
Qed.

(** X18.  Choosing a category and letting the filter effect run gives the
    view of the collection for that category: for an id that is not empty,
    only tasks of exactly that category; for null or the empty id, the view
    without a category filter. *)
Theorem view_after_handleCategoryFilter tza chosen s :
  filteredTasks (filterEffect tza (handleCategoryFilter chosen s))
  = derive tza (tasks s) (currentDate s) (selectedFilterType s) chosen
  /\ (forall c task,
        chosen = Some c -> c <> ""%string ->
        In task (filteredTasks
                   (filterEffect tza (handleCategoryFilter chosen s))) ->
        category task = Some c)
  /\ (truthy chosen = None ->
      filteredTasks (filterEffect tza (handleCategoryFilter chosen s))
      = derive tza (tasks s) (currentDate s) (selectedFilterType s) None).
Proof.
  assert (E : filteredTasks (filterEffect tza (handleCategoryFilter chosen s))
              = sort comparePriority
                  (retained tza (tasks s) (currentDate s)
                            (selectedFilterType s) chosen)).
  { rewrite filterEffect_filteredTasks.
    destruct (handleCategoryFilter_frame chosen s) as [-> [-> [-> [-> _]]]].
    reflexivity. }
  rewrite E, !derive_eq. split; [reflexivity |]. split.
  - intros c task -> N. rewrite SortFacts.sort_In, retained_In.
    destruct c as [| ch c]; [contradiction |]. cbn [truthy]. tauto.
  - intros T. unfold retained. rewrite T. reflexivity.
Qed.

End CategoryFacts.

(** * Loading tasks *)

Module LoadFacts.
Import DeriveFacts.


End LoadFacts.

(** * The priorities the selector offers *)

Module SelectorFacts.
Import SortFacts DeriveFacts.

Lemma StronglySorted_weaken {A : Type} (R R' : A -> A -> Prop) l :
  (forall a b, In a l -> In b l -> R a b -> R' a b) ->
  StronglySorted R l -> StronglySorted R' l.
Proof.
  intros H S. induction S as [| x l S IH F]; [constructor |].
  constructor.
  - apply IH. intros a b Ha Hb. apply H; right; assumption.
  - rewrite Forall_forall in *. intros y Hy.
    apply H; [left; reflexivity | right; exact Hy | apply F; exact Hy].
Qed.

Lemma offered_rank opt :
  In opt priorityOptions ->
  effectiveRank (value opt) = claimedRank (value opt).
Proof. intros [<- | [<- | [<- | []]]]; reflexivity. Qed.

(** X20.  For a collection whose priorities are all among those the
    selector offers (high, normal, low), the view is ascending in the rank of
    the specification: the falsy zero of [crucial] does not come into
    play. *)
Theorem derive_ascending_from_selector tza T d field c :
  fromSelector T ->
  StronglySorted (ascendingBy (fun task => claimedRank (priority task)))
                 (derive tza T d field c).
Proof.
  intros H.
  apply (StronglySorted_weaken
           (ascendingBy (fun task => effectiveRank (priority task))));
    [| apply derive_ascending].
  assert (E : forall task, In task (derive tza T d field c) ->
                effectiveRank (priority task) = claimedRank (priority task)).
  { intros task Hin. rewrite derive_eq, sort_In, retained_In in Hin.
    destruct Hin as [Hin _]. destruct (H task Hin) as [opt [Ho <-]].
    apply offered_rank. exact Ho. }
  intros a b Ha Hb. unfold ascendingBy. rewrite (E a Ha), (E b Hb). tauto.
Qed.

Lemma derive_ascending_from_selector_witness :
  StronglySorted (ascendingBy (fun task => claimedRank (priority task)))
                 (derive 0 categorised noon10March ByDueDate None).
Proof.
  apply derive_ascending_from_selector.
  intros task [<- | [<- | []]];
    (exists (mkPriorityOption normal "normal" "bookmark" "Standard priority");
     split; [right; left; reflexivity | reflexivity]).
Defined.

(** X21.  The selector draws exactly one option as selected when the
    selected priority is one it offers, namely the option of that priority,
    and none when the priority is [crucial] or [optional]. *)
Theorem isSelected_options selectedPriority :
  List.length (filter (isSelected selectedPriority) priorityOptions)
  = match selectedPriority with
    | high | normal | low => 1%nat
    | crucial | optional => 0%nat
    end
  /\ forall opt,
       In opt (filter (isSelected selectedPriority) priorityOptions) ->
       value opt = selectedPriority.
Proof.
  destruct selectedPriority; cbn; (split; [reflexivity |]);
    intros opt Hin; repeat (destruct Hin as [<- | Hin]; [reflexivity |]);
    destruct Hin.
Qed.

End SelectorFacts.
